(** * Prompt generator: intent detection, prompt templates, library matcher

    A shallow embedding of [script.js] and the properties of its core
    functions: [normalize], [detectIntent], the [build*Prompt] templates,
    [bestLibraryMatch], [formatLibraryPrompt] and the intent switch of the
    "generate from need" click handler.

    Modelling choices.
    - A JavaScript string is the list of its UTF-16 code units.
    - A call may complete normally or throw; the only mutable global of the
      script is [PROMPTS].  Every function is therefore a computation in a
      small state-and-exception monad over that global.
    - [String.prototype.toLowerCase] follows the Unicode tables of the host;
      it is a parameter of the development, constrained only on ASCII and
      white-space code units, where ECMAScript fixes its behaviour. *)

From stdpp Require Import base option list list_numbers strings.
From Stdlib Require Import NArith Ascii Lia.

Local Open Scope N_scope.
Local Open Scope list_scope.

(** ** Strings as sequences of UTF-16 code units *)

Abbreviation char16 := N (only parsing).
Abbreviation jsstring := (list N).

(** An ASCII literal of the source, as code units. *)
Fixpoint lit (s : string) : jsstring :=
  match s with
  | EmptyString => []
  | String a s' => N_of_ascii a :: lit s'
  end.

(** The escapes and the non-ASCII characters of the template literals. *)
Definition nl : jsstring := [10].          (* \n *)
Definition dq : jsstring := [34].          (* the double quote *)
Definition rsquo : jsstring := [8217].     (* U+2019 *)
Definition ldquo : jsstring := [8220].     (* U+201C *)
Definition rdquo : jsstring := [8221].     (* U+201D *)
Definition sp : jsstring := [32].

(** ECMAScript WhiteSpace and LineTerminator code points: what [trim]
    strips and what the class [\s] matches. *)
Definition isWhiteSpace (c : char16) : bool :=
  (c =? 9) || (c =? 10) || (c =? 11) || (c =? 12) || (c =? 13) ||
  (c =? 32) || (c =? 160) || (c =? 5760) ||
  ((8192 <=? c) && (c <=? 8202)) ||
  (c =? 8232) || (c =? 8233) || (c =? 8239) || (c =? 8287) ||
  (c =? 12288) || (c =? 65279).

(** The word characters of [\b] (no [u] or [i] flag): [A-Za-z0-9_]. *)
Definition isWordChar (c : char16) : bool :=
  ((48 <=? c) && (c <=? 57)) || ((65 <=? c) && (c <=? 90)) ||
  (c =? 95) || ((97 <=? c) && (c <=? 122)).

Definition isAscii (c : char16) : bool := c <? 128.

(** [toLowerCase] on one ASCII code unit. *)
Definition asciiLower (c : char16) : char16 :=
  if (65 <=? c) && (c <=? 90) then c + 32 else c.

Fixpoint trimStart (s : jsstring) : jsstring :=
  match s with
  | c :: s' => if isWhiteSpace c then trimStart s' else s
  | [] => []
  end.

Definition trimEnd (s : jsstring) : jsstring := rev (trimStart (rev s)).

(** [String.prototype.trim]. *)
Definition trim (s : jsstring) : jsstring := trimEnd (trimStart s).

Fixpoint startsWith (needle hay : jsstring) : bool :=
  match needle, hay with
  | [], _ => true
  | c :: needle', d :: hay' => (c =? d) && startsWith needle' hay'
  | _ :: _, [] => false
  end.

Local Close Scope N_scope.

(** [hay.includes(needle)]: the needle occurs at some position. *)
Fixpoint includes (hay needle : jsstring) : bool :=
  startsWith needle hay ||
  match hay with
  | [] => false
  | _ :: hay' => includes hay' needle
  end.

(** [s.split(/\s+/)].  The separator matches a maximal run of white space,
    so the split cuts at every such run; a run at either end leaves an
    empty piece there, and the empty string splits to one empty piece.
    [inSep] tells that the previous code unit belonged to a separator. *)
Fixpoint splitWs (inSep : bool) (cur : jsstring) (s : jsstring)
  : list jsstring :=
  match s with
  | [] => [cur]
  | c :: s' =>
      if isWhiteSpace c
      then (if inSep then splitWs true [] s' else cur :: splitWs true [] s')
      else splitWs false (cur ++ [c]) s'
  end.

Definition split_ws (s : jsstring) : list jsstring := splitWs false [] s.

(** [Boolean(s)] on a string, and [xs.filter(Boolean)] on strings. *)
Definition nonEmpty (s : jsstring) : bool :=
  match s with [] => false | _ :: _ => true end.

Definition filterBoolean (xs : list jsstring) : list jsstring :=
  List.filter nonEmpty xs.

(** ** Values, records, state *)

(** A Number, as far as [ToBoolean] looks at it: NaN, the two zeros, the
    infinities, and the dyadic rationals [m * 2^e] in between. *)
Inductive number :=
| NaN
| NegZero
| Infinity (negative : bool)
| Dyadic (m e : Z).

(** The primitive values a caller can pass for [need]. *)
Inductive value :=
| VUndefined
| VNull
| VBoolean (b : bool)
| VNumber (n : number)
| VBigInt (z : Z)
| VSymbol (description : option jsstring)
| VString (s : jsstring).

Definition ToBoolean (v : value) : bool :=
  match v with
  | VUndefined | VNull => false
  | VBoolean b => b
  | VNumber NaN | VNumber NegZero => false
  | VNumber (Infinity _) => true
  | VNumber (Dyadic m _) => negb (m =? 0)%Z
  | VBigInt z => negb (z =? 0)%Z
  | VSymbol _ => true
  | VString s => nonEmpty s
  end.

(** An entry of prompts.json: six free-text fields, each of which may be
    absent. *)
Record PromptRecord := {
  title : option jsstring;
  instruction : option jsstring;
  inputs : option jsstring;
  output : option jsstring;
  success_criteria : option jsstring;
  follow_up : option jsstring
}.

(** [field || '']. *)
Definition orEmpty (f : option jsstring) : jsstring :=
  match f with
  | Some (c :: s) => c :: s
  | Some [] | None => []
  end.

(** What a builder returns, [{title, text}]. *)
Module Gen.
Record t := mk { title : jsstring; text : jsstring }.
End Gen.

(** The mutable global of the script. *)
Record state := { PROMPTS : list PromptRecord }.

Inductive exn := TypeError.

Inductive outcome (A : Type) :=
| Ok (a : A)
| Throw (e : exn).
Arguments Ok {A} a.
Arguments Throw {A} e.

(** Computations: read and write the global, return or throw. *)
Definition M (A : Type) : Type := state -> outcome A * state.

Definition ret {A} (a : A) : M A := fun st => (Ok a, st).
Definition throw {A} (e : exn) : M A := fun st => (Throw e, st).
Definition bind {A B} (c : M A) (k : A -> M B) : M B :=
  fun st =>
    match c st with
    | (Ok a, st') => k a st'
    | (Throw e, st') => (Throw e, st')
    end.
Definition readPROMPTS : M (list PromptRecord) := fun st => (Ok (PROMPTS st), st).

Notation "'let!' x ':=' c 'in' k" := (bind c (fun x => k))
  (at level 10, x name, c at level 100, k at level 200).

(** ** The regular expressions of [detectIntent]

    The four patterns use literal characters, alternation, one group and
    the assertion [\b].  [matchAt r input i k] is the backtracking matcher
    of ECMAScript: it matches [r] at index [i] and hands the end index to
    the continuation [k]; a disjunction tries its left side first and falls
    back to the right side when the continuation fails. *)

Inductive regex :=
| Empty
| Char (c : char16)
| WordBoundary
| Seq (r1 r2 : regex)
| Disj (r1 r2 : regex).

(** IsWordChar(e) for the index before [e]: false at the start of input. *)
Definition wordCharBefore (input : jsstring) (e : nat) : bool :=
  match e with
  | O => false
  | S e' => match input !! e' with Some c => isWordChar c | None => false end
  end.

(** IsWordChar(e): false at the end of input. *)
Definition wordCharAt (input : jsstring) (e : nat) : bool :=
  match input !! e with Some c => isWordChar c | None => false end.

Definition isWordBoundary (input : jsstring) (e : nat) : bool :=
  xorb (wordCharBefore input e) (wordCharAt input e).

Fixpoint matchAt (r : regex) (input : jsstring) (i : nat)
  (k : nat -> bool) : bool :=
  match r with
  | Empty => k i
  | Char c =>
      match input !! i with
      | Some d => if (d =? c)%N then k (S i) else false
      | None => false
      end
  | WordBoundary => if isWordBoundary input i then k i else false
  | Seq r1 r2 => matchAt r1 input i (fun j => matchAt r2 input j k)
  | Disj r1 r2 => matchAt r1 input i k || matchAt r2 input i k
  end.

(** [r.test(input)] for a regex without flags: the first start index, from
    0 to the length of the input, at which the pattern matches. *)
Definition test (r : regex) (input : jsstring) : bool :=
  existsb (fun i => matchAt r input i (fun _ => true))
          (seq 0 (S (length input))).

Definition literal (w : jsstring) : regex :=
  foldr (fun c r => Seq (Char c) r) Empty w.

(** [w|w1|...|wn] *)
Fixpoint alternatives (w : jsstring) (ws : list jsstring) : regex :=
  match ws with
  | [] => literal w
  | w' :: ws' => Disj (literal w) (alternatives w' ws')
  end.

(** [\b(w|w1|...|wn)\b] *)
Definition words (w : jsstring) (ws : list jsstring) : regex :=
  Seq WordBoundary (Seq (alternatives w ws) WordBoundary).

Definition ooo_words : list jsstring :=
  [lit "ooo"; lit "out of office"; lit "out-of-office"; lit "vacation";
   lit "leave"; lit "out of the office"].
Definition status_update_words : list jsstring :=
  [lit "stakeholder"; lit "update"; lit "status"; lit "weekly update";
   lit "progress report"].
Definition product_req_words : list jsstring :=
  [lit "user story"; lit "acceptance criteria"; lit "ac";
   lit "feature request"].
Definition prd_words : list jsstring :=
  [lit "prd"; lit "requirements doc"; lit "product requirements"].

(** The pattern of a word list (the lists above are not empty). *)
Definition wordsOf (ws : list jsstring) : regex :=
  match ws with
  | [] => Empty
  | w :: ws' => words w ws'
  end.

Definition re_ooo : regex := wordsOf ooo_words.
Definition re_status_update : regex := wordsOf status_update_words.
Definition re_product_req : regex := wordsOf product_req_words.
Definition re_prd : regex := wordsOf prd_words.

(** ** The templates *)

Definition buildOOOPrompt (need tone length format : jsstring) : M Gen.t :=
  ret (Gen.mk
    (lit "Generated: Out-of-office message")
    (lit "You are an expert communications assistant." ++ nl ++ nl ++
     lit "Task:" ++ nl ++
     lit "Create an out-of-office (OOO) message based on the user" ++ rsquo ++
     lit "s input." ++ nl ++ nl ++
     lit "User input:" ++ nl ++ dq ++ need ++ dq ++ nl ++ nl ++
     lit "Requirements:" ++ nl ++
     lit "- Tone: " ++ tone ++ nl ++
     lit "- Length: " ++ length ++ nl ++
     lit "- Channel/format: " ++ format ++ nl ++
     lit "- Include: dates (if mentioned), who to contact for urgent issues, and what the sender will do when back." ++ nl ++
     lit "- If dates are missing, ask 2 quick questions at the end OR provide 2 variants (with placeholders)." ++ nl ++ nl ++
     lit "Output:" ++ nl ++
     lit "1) Final OOO message (ready to copy/paste)" ++ nl ++
     lit "2) Optional: 1 shorter variant")).

Definition buildGenericPrompt (need tone length format : jsstring)
  : M Gen.t :=
  ret (Gen.mk
    (lit "Generated: Structured prompt from your need")
    (lit "You are a senior Product + Delivery assistant." ++ nl ++ nl ++
     lit "Goal:" ++ nl ++
     lit "Help me with this request:" ++ nl ++ dq ++ need ++ dq ++ nl ++ nl ++
     lit "Instructions:" ++ nl ++
     lit "- Ask up to 3 clarifying questions ONLY if absolutely required. Otherwise proceed with reasonable assumptions (and list them)." ++ nl ++
     lit "- Keep the tone " ++ tone ++ lit "." ++ nl ++
     lit "- Keep the length " ++ length ++ lit "." ++ nl ++
     lit "- Output in " ++ format ++ lit " format." ++ nl ++ nl ++
     lit "Output structure:" ++ nl ++
     lit "1) Assumptions (if any)" ++ nl ++
     lit "2) The main deliverable (fully written)" ++ nl ++
     lit "3) Next steps / checklist")).

Definition buildStatusUpdatePrompt (need tone length format : jsstring)
  : M Gen.t :=
  ret (Gen.mk
    (lit "Generated: Stakeholder status update")
    (lit "You are an executive communications assistant." ++ nl ++ nl ++
     lit "Task:" ++ nl ++
     lit "Craft a status update based on the user" ++ rsquo ++
     lit "s input." ++ nl ++ nl ++
     lit "User input:" ++ nl ++ dq ++ need ++ dq ++ nl ++ nl ++
     lit "Requirements:" ++ nl ++
     lit "- Tone: " ++ tone ++ nl ++
     lit "- Length: " ++ length ++ nl ++
     lit "- Channel/format: " ++ format ++ nl ++
     lit "- Summarise progress, blockers, and next steps clearly." ++ nl ++
     lit "- Highlight any risks or escalations." ++ nl ++ nl ++
     lit "Output:" ++ nl ++
     lit "1) Status update message (ready to send)" ++ nl ++
     lit "2) Optional: bullet points summarising key takeaways")).

Definition buildProductReqPrompt (need tone length format : jsstring)
  : M Gen.t :=
  ret (Gen.mk
    (lit "Generated: User story / requirement")
    (lit "You are a product discovery assistant." ++ nl ++ nl ++
     lit "Task:" ++ nl ++
     lit "Create a user story or requirement based on the user" ++ rsquo ++
     lit "s input." ++ nl ++ nl ++
     lit "User input:" ++ nl ++ dq ++ need ++ dq ++ nl ++ nl ++
     lit "Requirements:" ++ nl ++
     lit "- Tone: " ++ tone ++ nl ++
     lit "- Length: " ++ length ++ nl ++
     lit "- Channel/format: " ++ format ++ nl ++
     lit "- Use the template: " ++ ldquo ++
     lit "As a [persona], I want [need] so that [reason]" ++ rdquo ++
     lit "." ++ nl ++
     lit "- Define acceptance criteria clearly." ++ nl ++ nl ++
     lit "Output:" ++ nl ++
     lit "1) User story statement" ++ nl ++
     lit "2) Acceptance criteria (bulleted)")).

Definition buildPrdPrompt (need tone length format : jsstring) : M Gen.t :=
  ret (Gen.mk
    (lit "Generated: Product Requirements Document (PRD)")
    (lit "You are a product strategy assistant." ++ nl ++ nl ++
     lit "Task:" ++ nl ++
     lit "Draft a Product Requirements Document (PRD) based on the user" ++
     rsquo ++ lit "s input." ++ nl ++ nl ++
     lit "User input:" ++ nl ++ dq ++ need ++ dq ++ nl ++ nl ++
     lit "Requirements:" ++ nl ++
     lit "- Tone: " ++ tone ++ nl ++
     lit "- Length: " ++ length ++ nl ++
     lit "- Channel/format: " ++ format ++ nl ++
     lit "- Include sections: Problem statement, Goals, Scope (in/out), User stories, Success metrics, Risks." ++ nl ++
     lit "- Summarise stakeholders and timeline if applicable." ++ nl ++ nl ++
     lit "Output:" ++ nl ++
     lit "1) PRD outline" ++ nl ++
     lit "2) Checklist of next steps")).

Definition formatLibraryPrompt (p : PromptRecord) : M jsstring :=
  ret (lit "Instruction:" ++ nl ++ orEmpty (instruction p) ++ nl ++ nl ++
       lit "Inputs:" ++ nl ++ orEmpty (inputs p) ++ nl ++ nl ++
       lit "Output:" ++ nl ++ orEmpty (output p) ++ nl ++ nl ++
       lit "Success criteria:" ++ nl ++ orEmpty (success_criteria p) ++
       nl ++ nl ++
       lit "Follow-up:" ++ nl ++ orEmpty (follow_up p)).

(** ** The functions that depend on the host's [toLowerCase] *)

Section Host.

Variable toLowerCase : jsstring -> jsstring.

(** [(s || '').toLowerCase().trim()].  A falsy [s] is replaced by the empty
    string; a truthy value that is not a string is a primitive without a
    [toLowerCase] method, and calling it throws a TypeError. *)
Definition normalize (s : value) : M jsstring :=
  match (if ToBoolean s then s else VString []) with
  | VString x => ret (trim (toLowerCase x))
  | _ => throw TypeError
  end.

Definition detectIntent (need : value) : M jsstring :=
  let! n := normalize need in
  if test re_ooo n then ret (lit "ooo")
  else if test re_status_update n then ret (lit "status_update")
  else if test re_product_req n then ret (lit "product_req")
  else if test re_prd n then ret (lit "prd")
  else ret (lit "generic").

(** The inner loop of [bestLibraryMatch]:
    [for (const tok of tokens) if (hay.includes(tok)) score += 1]. *)
Definition scoreTokens (hay : jsstring) (tokens : list jsstring) : nat :=
  fold_left (fun score tok => if includes hay tok then (score + 1)%nat else score)
            tokens 0%nat.

(** The body of the outer loop up to the comparison: the haystack of the
    record [p] and its score. *)
Definition scoreOf (tokens : list jsstring) (p : PromptRecord) : M nat :=
  let! hay := normalize (VString (orEmpty (title p) ++ sp ++
                                  orEmpty (instruction p) ++ sp ++
                                  orEmpty (output p))) in
  ret (scoreTokens hay tokens).

(** The outer loop, with its two variables [best] and [bestScore]. *)
Fixpoint scan (tokens : list jsstring) (ps : list PromptRecord)
  (best : option PromptRecord) (bestScore : nat)
  : M (option PromptRecord * nat) :=
  match ps with
  | [] => ret (best, bestScore)
  | p :: ps' =>
      let! score := scoreOf tokens p in
      if (bestScore <? score)%nat
      then scan tokens ps' (Some p) score
      else scan tokens ps' best bestScore
  end.

Definition bestLibraryMatch (need : value) : M (option PromptRecord) :=
  let! q := normalize need in
  if negb (nonEmpty q) then ret None
  else
    let! prompts := readPROMPTS in
    if (List.length prompts =? 0)%nat then ret None
    else
      let tokens := filterBoolean (split_ws q) in
      let! r := scan tokens prompts None 0%nat in
      ret (if (0 <? snd r)%nat then fst r else None).

(** The [switch (intent)] of the click handler: strict equality with each
    case label in turn, then [default]. *)
Definition intentSwitch (intent need tone length format : jsstring)
  : M Gen.t :=
  if bool_decide (intent = lit "ooo")
  then buildOOOPrompt need tone length format
  else if bool_decide (intent = lit "status_update")
  then buildStatusUpdatePrompt need tone length format
  else if bool_decide (intent = lit "product_req")
  then buildProductReqPrompt need tone length format
  else if bool_decide (intent = lit "prd")
  then buildPrdPrompt need tone length format
  else buildGenericPrompt need tone length format.

(** The click handler of [generateFromNeedBtn].  Its arguments are the
    values of the four form fields; its result is the pair handed to
    [renderResult]. *)
Definition onGenerateFromNeed (needInput tone length format : jsstring)
  : M Gen.t :=
  let need := trim needInput in
  if negb (nonEmpty need)
  then ret (Gen.mk
         (lit "Tell me what you need")
         (lit "Type a short description above (e.g., " ++ ldquo ++
          lit "Generate an OOO message for next week..." ++ rdquo ++
          lit " )."))
  else
    let! intent := detectIntent (VString need) in
    let! generated := intentSwitch intent need tone length format in
    ret generated.

End Host.

(** [toLowerCase] as it acts on ASCII text, code unit by code unit: the
    instance at which the functions are run on concrete inputs. *)
Definition asciiToLowerCase (s : jsstring) : jsstring := map asciiLower s.

(** ** Loading the library and the second click handler *)

(** What [res.json()] can resolve to, as far as [loadPrompts] looks at it:
    an array (of prompt records) or some other JSON value. *)
Inductive json :=
| JArray (items : list PromptRecord)
| JNotArray.

(** The outcome of the two awaited calls of [loadPrompts]: [fetch] rejects,
    or it resolves and [res.json()] rejects, or both resolve. *)
Inductive response :=
| FetchRejected
| JsonRejected
| Parsed (data : json).

Definition writePROMPTS (ps : list PromptRecord) : M unit :=
  fun _ => (Ok tt, {| PROMPTS := ps |}).

(** [loadPrompts]: the [try] body assigns [Array.isArray(data) ? data : []],
    the [catch] clause assigns [[]]. *)
Definition loadPrompts (r : response) : M unit :=
  match r with
  | Parsed data =>
      writePROMPTS (match data with JArray items => items | JNotArray => [] end)
  | FetchRejected | JsonRejected => writePROMPTS []
  end.

(** [match.title || 'Library Prompt'] *)
Definition titleOrDefault (p : PromptRecord) : jsstring :=
  match title p with
  | Some (c :: s) => c :: s
  | Some [] | None => lit "Library Prompt"
  end.

Definition noMatchMessage : Gen.t :=
  Gen.mk (lit "No library match found")
         (lit "I couldn" ++ rsquo ++
          lit "t find a close match in the current prompt library. Use " ++
          ldquo ++ lit "Generate from my need" ++ rdquo ++ lit " instead.").

(** The click handler of [generateFromLibraryBtn]; its argument is the
    value of the need field, its result the pair handed to
    [renderResult]. *)
Definition onGenerateFromLibrary (toLowerCase : jsstring -> jsstring)
  (needInput : jsstring) : M Gen.t :=
  let need := trim needInput in
  let! found := bestLibraryMatch toLowerCase (VString need) in
  match found with
  | None => ret noMatchMessage
  | Some p =>
      let! text := formatLibraryPrompt p in
      ret (Gen.mk (titleOrDefault p) text)
  end.

(** ** What the claims speak about, in declarative form *)

(** [w] occurs in [hay]: the meaning of "substring containment". *)
Definition occursIn (w hay : jsstring) : Prop :=
  exists pre post, hay = pre ++ w ++ post.

Definition lastIsWord (pre : jsstring) : bool :=
  match last pre with Some c => isWordChar c | None => false end.

Definition headIsWord (post : jsstring) : bool :=
  match post with c :: _ => isWordChar c | [] => false end.

(** A word boundary lies between [pre] and [post]: exactly one of the two
    neighbouring code units is a word character. *)
Definition boundaryBetween (pre post : jsstring) : bool :=
  xorb (lastIsWord pre) (headIsWord post).

(** One of the phrases [ws] occurs in [n] between two word boundaries:
    "the pattern set has a match somewhere in the text". *)
Definition wordMatch (ws : list jsstring) (n : jsstring) : Prop :=
  exists w pre post,
    w ∈ ws /\ n = pre ++ w ++ post /\
    boundaryBetween pre (w ++ post) = true /\
    boundaryBetween (pre ++ w) post = true.

(** What ECMAScript fixes about [toLowerCase] whatever the Unicode tables
    of the host: on a string of ASCII and white-space code units it lowers
    the letters A-Z and leaves every other code unit alone. *)
Definition lowersAscii (toLowerCase : jsstring -> jsstring) : Prop :=
  forall s, forallb (fun c => isAscii c || isWhiteSpace c) s = true ->
            toLowerCase s = map asciiLower s.

(** The normalized text of a string need, its raw token list, and the
    haystack of a record, as [bestLibraryMatch] computes them. *)
Definition normalized (toLowerCase : jsstring -> jsstring) (s : jsstring)
  : jsstring :=
  trim (toLowerCase s).

Definition tokensOf (toLowerCase : jsstring -> jsstring) (need : jsstring)
  : list jsstring :=
  filterBoolean (split_ws (normalized toLowerCase need)).

Definition haystack (toLowerCase : jsstring -> jsstring) (p : PromptRecord)
  : jsstring :=
  normalized toLowerCase
    (orEmpty (title p) ++ sp ++ orEmpty (instruction p) ++ sp ++
     orEmpty (output p)).

(** The number of entries of the token list that occur in a haystack. *)
Definition matchingTokens (hay : jsstring) (tokens : list jsstring) : nat :=
  List.length (List.filter (fun tok => includes hay tok) tokens).

(** The haystack as the specification words it: the normalized
    concatenation of the three fields, nothing in between. *)
Definition concatHaystack (toLowerCase : jsstring -> jsstring)
  (p : PromptRecord) : jsstring :=
  normalized toLowerCase
    (orEmpty (title p) ++ orEmpty (instruction p) ++ orEmpty (output p)).

(** [p] is the first record of [ps] whose score is the maximum [m]. *)
Definition firstWithScore (sc : PromptRecord -> nat) (ps : list PromptRecord)
  (m : nat) (p : PromptRecord) : Prop :=
  exists i : nat,
    ps !! i = Some p /\ sc p = m /\
    forall (j : nat) (p' : PromptRecord),
      (j < i)%nat -> ps !! j = Some p' -> (sc p' < m)%nat.

(** The five tags [detectIntent] can return, and the five titles of the
    builders. *)
Definition intentTags : list jsstring :=
  [lit "ooo"; lit "status_update"; lit "product_req"; lit "prd"; lit "generic"].

Definition builderTitles : list jsstring :=
  [lit "Generated: Out-of-office message";
   lit "Generated: Stakeholder status update";
   lit "Generated: User story / requirement";
   lit "Generated: Product Requirements Document (PRD)";
   lit "Generated: Structured prompt from your need"].

(** All the phrases of the four patterns. *)
Definition allWords : list jsstring :=
  ooo_words ++ status_update_words ++ product_req_words ++ prd_words.

(** A string without white space, and a string of ASCII and white-space
    code units. *)
Definition wsFree (s : jsstring) : bool :=
  forallb (fun c => negb (isWhiteSpace c)) s.

Definition asciiText (s : jsstring) : bool :=
  forallb (fun c => isAscii c || isWhiteSpace c) s.

(** A generated prompt echoes its inputs: the need between double quotes,
    and the tone, the length and the format, all as they were given. *)
Definition echoes (need tone length format : jsstring) (g : Gen.t) : Prop :=
  occursIn (dq ++ need ++ dq) (Gen.text g) /\
  occursIn tone (Gen.text g) /\
  occursIn length (Gen.text g) /\
  occursIn format (Gen.text g).

(** The tags with the titles of their builders. *)
Definition intentTitles : list (jsstring * jsstring) :=
  [(lit "ooo", lit "Generated: Out-of-office message");
   (lit "status_update", lit "Generated: Stakeholder status update");
   (lit "product_req", lit "Generated: User story / requirement");
   (lit "prd", lit "Generated: Product Requirements Document (PRD)");
   (lit "generic", lit "Generated: Structured prompt from your need")].

(** ** Sample data *)

Definition record (t i o : option jsstring) : PromptRecord :=
  {| title := t; instruction := i; inputs := None; output := o;
     success_criteria := None; follow_up := None |}.

Definition sprintRecord : PromptRecord :=
  record (Some (lit "Sprint planning")) (Some (lit "plan a sprint"))
         (Some (lit "backlog")).
Definition recordA : PromptRecord := record (Some (lit "A")) None None.
Definition recordB : PromptRecord :=
  record (Some (lit "B planning")) None None.

(** Two fields whose plain concatenation, "abcd", contains a token that
    neither field contains. *)
Definition splitRecord : PromptRecord :=
  record (Some (lit "ab")) (Some (lit "cd")) None.

Definition library (ps : list PromptRecord) : state := {| PROMPTS := ps |}.

(** ** Strings *)

Lemma startsWith_spec (w s : jsstring) :
  startsWith w s = true <-> exists post, s = w ++ post.
Proof.
  revert s; induction w as [|c w IH]; intros s; simpl.
  - split; [intros _; by exists s | done].
  - destruct s as [|d s]; simpl.
    + split; [done | intros [post H]; discriminate].
    + rewrite andb_true_iff, N.eqb_eq, IH. split.
      * intros [-> [post ->]]. by exists post.
      * intros [post H]. injection H as -> ->. split; [done | by exists post].
Qed.

Lemma includes_spec (hay w : jsstring) :
  includes hay w = true <-> occursIn w hay.
Proof.
  unfold occursIn. induction hay as [|d hay IH].
  - simpl. rewrite orb_false_r, startsWith_spec. split.
    + intros [post ->]. by exists [], post.
    + intros (pre & post & H). destruct pre; [by exists post|discriminate].
  - cbn [includes]. rewrite orb_true_iff, startsWith_spec, IH. split.
    + intros [[post ->]|(pre & post & ->)].
      * by exists [], post.
      * by exists (d :: pre), post.
    + intros (pre & post & H). destruct pre as [|e pre]; simpl in H.
      * left. by exists post.
      * right. injection H as -> ->. by exists pre, post.
Qed.

Lemma trimStart_nil_iff (s : jsstring) :
  trimStart s = [] <-> forallb isWhiteSpace s = true.
Proof.
  induction s as [|c s IH]; simpl; [done|].
  destruct (isWhiteSpace c); simpl; [done | split; discriminate].
Qed.

Lemma trim_whitespace (s : jsstring) :
  forallb isWhiteSpace s = true -> trim s = [].
Proof.
  intros H. unfold trim. apply trimStart_nil_iff in H. by rewrite H.
Qed.

(** ** The matcher *)

Lemma existsb_pointwise {A} (f g : A -> bool) (l : list A) :
  (forall x, f x = g x) -> existsb f l = existsb g l.
Proof.
  intros H. induction l as [|a l IH]; simpl; [done|]. by rewrite H, IH.
Qed.

Lemma matchAt_literal (w pre rest : jsstring) (k : nat -> bool) :
  matchAt (literal w) (pre ++ rest) (List.length pre) k =
  startsWith w rest && k (List.length pre + List.length w)%nat.
Proof.
  revert pre rest; induction w as [|c w IH]; intros pre rest.
  - simpl. by rewrite Nat.add_0_r.
  - cbn [literal foldr matchAt].
    rewrite lookup_app_r, Nat.sub_diag by lia.
    destruct rest as [|d rest]; simpl; [done|].
    rewrite (N.eqb_sym c d). destruct (d =? c)%N; simpl; [|done].
    specialize (IH (pre ++ [d]) rest).
    rewrite <- app_assoc, length_app in IH. simpl in IH.
    rewrite Nat.add_1_r in IH. fold (literal w). rewrite IH.
    by rewrite Nat.add_succ_r.
Qed.

Lemma matchAt_alternatives (w : jsstring) (ws : list jsstring)
  (pre rest : jsstring) (k : nat -> bool) :
  matchAt (alternatives w ws) (pre ++ rest) (List.length pre) k =
  existsb (fun x => startsWith x rest &&
                    k (List.length pre + List.length x)%nat) (w :: ws).
Proof.
  revert w; induction ws as [|w' ws IH]; intros w.
  - simpl. by rewrite matchAt_literal, orb_false_r.
  - cbn [alternatives matchAt]. rewrite matchAt_literal, IH. reflexivity.
Qed.

Lemma isWordBoundary_app (pre post : jsstring) :
  isWordBoundary (pre ++ post) (List.length pre) = boundaryBetween pre post.
Proof.
  unfold isWordBoundary, boundaryBetween. f_equal.
  - unfold wordCharBefore, lastIsWord.
    destruct pre as [|c pre _] using rev_ind; [done|].
    rewrite length_app, Nat.add_1_r, last_snoc, <- app_assoc.
    by rewrite lookup_app_r, Nat.sub_diag by lia.
  - unfold wordCharAt, headIsWord.
    rewrite lookup_app_r, Nat.sub_diag by lia. by destruct post.
Qed.

Lemma matchAt_words (w : jsstring) (ws : list jsstring) (pre rest : jsstring) :
  matchAt (words w ws) (pre ++ rest) (List.length pre) (fun _ => true) =
  boundaryBetween pre rest &&
  existsb (fun x => startsWith x rest &&
             isWordBoundary (pre ++ rest) (List.length pre + List.length x)%nat)
          (w :: ws).
Proof.
  unfold words. cbn [matchAt]. rewrite isWordBoundary_app.
  destruct (boundaryBetween pre rest); [|done].
  rewrite matchAt_alternatives. simpl.
  f_equal; [|apply existsb_pointwise; intros x]; by destruct (isWordBoundary _ _).
Qed.

Lemma test_words (w : jsstring) (ws : list jsstring) (n : jsstring) :
  test (words w ws) n = true <-> wordMatch (w :: ws) n.
Proof.
  unfold test, wordMatch. rewrite existsb_exists. split.
  - intros (i & Hi & Hm). apply in_seq in Hi.
    pose proof (take_drop i n) as Hn.
    assert (Hl : List.length (take i n) = i) by (rewrite length_take; lia).
    remember (take i n) as pre eqn:Hpre. remember (drop i n) as rest eqn:Hrest.
    clear Hpre Hrest Hi. subst n i.
    rewrite matchAt_words in Hm.
    apply andb_true_iff in Hm as [Hb Hx].
    apply existsb_exists in Hx as (x & Hx & Hs).
    apply andb_true_iff in Hs as [Hs He].
    apply startsWith_spec in Hs as [post ->].
    exists x, pre, post.
    split_and!; [by apply list_elem_of_In | done | done |].
    by rewrite app_assoc, <- length_app, isWordBoundary_app in He.
  - intros (x & pre & post & Hx & -> & Hb & He).
    exists (List.length pre). split.
    + apply in_seq. rewrite !length_app. lia.
    + rewrite matchAt_words, Hb. rewrite andb_true_l. apply existsb_exists.
      exists x. split; [by apply list_elem_of_In|].
      apply andb_true_iff. split; [apply startsWith_spec; by exists post|].
      by rewrite app_assoc, <- length_app, isWordBoundary_app.
Qed.

(** ** Properties that hold for every host *)

Section Properties.

Variable toLowerCase : jsstring -> jsstring.

Lemma normalize_string (s : jsstring) (st : state) :
  normalize toLowerCase (VString s) st = (Ok (normalized toLowerCase s), st).
Proof. by destruct s. Qed.

Lemma normalize_falsy (v : value) :
  ToBoolean v = false ->
  normalize toLowerCase v = normalize toLowerCase (VString []).
Proof. unfold normalize. by intros ->. Qed.

(** A value is normalized like some string, or the call throws. *)
Lemma normalize_value (v : value) :
  (exists s, normalize toLowerCase v = normalize toLowerCase (VString s)) \/
  normalize toLowerCase v = throw TypeError.
Proof.
  destruct (ToBoolean v) eqn:Hv.
  - unfold normalize. rewrite Hv.
    destruct v as [| | | | | |s]; try (by right).
    left. exists s. by destruct s.
  - left. exists []. by apply normalize_falsy.
Qed.

Lemma test_wordsOf (ws : list jsstring) (n : jsstring) :
  ws <> [] -> test (wordsOf ws) n = true <-> wordMatch ws n.
Proof. destruct ws as [|w ws]; [done|]. intros _. apply test_words. Qed.

Lemma detectIntent_string (need : jsstring) (st : state) :
  detectIntent toLowerCase (VString need) st =
  (Ok (let n := normalized toLowerCase need in
       if test re_ooo n then lit "ooo"
       else if test re_status_update n then lit "status_update"
       else if test re_product_req n then lit "product_req"
       else if test re_prd n then lit "prd"
       else lit "generic"), st).
Proof.
  unfold detectIntent, bind. rewrite normalize_string. cbv zeta.
  repeat (destruct (test _ _); [reflexivity|]). reflexivity.
Qed.

(** Closes the case analysis of [detectIntent]: every conjunct either
    names the tag that was returned or assumes a match that the tests
    exclude. *)
Ltac decide_tag :=
  split_and!; intros; try reflexivity; exfalso;
  repeat match goal with
         | H : _ = true <-> _ |- _ => destruct H
         end;
  intuition discriminate.

(** C1.  [detectIntent] on a string need returns, without throwing and
    without touching the state, the tag of the first pattern set, in the
    order ooo, status_update, product_req, prd, that has a match somewhere
    in the normalized (lowercased, trimmed) need, and "generic" when none
    has one.  In particular a need with both an out-of-office match and a
    status-update match is classified "ooo". *)
Theorem detectIntent_first_match (need : jsstring) (st : state) :
  let n := normalized toLowerCase need in
  exists tag : jsstring,
    detectIntent toLowerCase (VString need) st = (Ok tag, st) /\
    (wordMatch ooo_words n -> tag = lit "ooo") /\
    (~ wordMatch ooo_words n -> wordMatch status_update_words n ->
     tag = lit "status_update") /\
    (~ wordMatch ooo_words n -> ~ wordMatch status_update_words n ->
     wordMatch product_req_words n -> tag = lit "product_req") /\
    (~ wordMatch ooo_words n -> ~ wordMatch status_update_words n ->
     ~ wordMatch product_req_words n -> wordMatch prd_words n ->
     tag = lit "prd") /\
    (~ wordMatch ooo_words n -> ~ wordMatch status_update_words n ->
     ~ wordMatch product_req_words n -> ~ wordMatch prd_words n ->
     tag = lit "generic") /\
    (wordMatch ooo_words n /\ wordMatch status_update_words n ->
     tag = lit "ooo").
Proof.
  intros n. eexists. split; [apply detectIntent_string|]. fold n.
  cbv zeta.
  pose proof (test_wordsOf ooo_words n ltac:(done)) as H1.
  pose proof (test_wordsOf status_update_words n ltac:(done)) as H2.
  pose proof (test_wordsOf product_req_words n ltac:(done)) as H3.
  pose proof (test_wordsOf prd_words n ltac:(done)) as H4.
  fold re_ooo in H1. fold re_status_update in H2.
  fold re_product_req in H3. fold re_prd in H4.
  destruct (test re_ooo n); [decide_tag|].
  destruct (test re_status_update n); [decide_tag|].
  destruct (test re_product_req n); [decide_tag|].
  destruct (test re_prd n); decide_tag.
Qed.

(** ** The library matcher *)

Lemma scoreTokens_from (hay : jsstring) (tokens : list jsstring) (a : nat) :
  fold_left (fun score tok => if includes hay tok then (score + 1)%nat else score)
            tokens a =
  (a + matchingTokens hay tokens)%nat.
Proof.
  unfold matchingTokens. revert a.
  induction tokens as [|tok tokens IH]; intros a; simpl; [lia|].
  rewrite IH. destruct (includes hay tok); simpl; lia.
Qed.

Lemma scoreTokens_count (hay : jsstring) (tokens : list jsstring) :
  scoreTokens hay tokens = matchingTokens hay tokens.
Proof. unfold scoreTokens. by rewrite scoreTokens_from. Qed.

Lemma scoreOf_eq (tokens : list jsstring) (p : PromptRecord) (st : state) :
  scoreOf toLowerCase tokens p st =
  (Ok (scoreTokens (haystack toLowerCase p) tokens), st).
Proof. unfold scoreOf, bind. by rewrite normalize_string. Qed.

(** The loop invariant of [bestLibraryMatch], at loop exit: [bestScore] is
    the maximum of its initial value and of the scores seen; [best] is
    unchanged if no score exceeded the initial [bestScore], and otherwise
    it is the first record that reaches the maximum. *)
Lemma scan_spec (tokens : list jsstring) (ps : list PromptRecord)
  (best : option PromptRecord) (bestScore : nat) (st : state) :
  let sc := fun p => scoreTokens (haystack toLowerCase p) tokens in
  exists best' bestScore',
    scan toLowerCase tokens ps best bestScore st = (Ok (best', bestScore'), st) /\
    bestScore' = (bestScore `max` max_list_with sc ps)%nat /\
    ((max_list_with sc ps <= bestScore)%nat /\ best' = best \/
     (bestScore < max_list_with sc ps)%nat /\
     exists p, best' = Some p /\ firstWithScore sc ps bestScore' p).
Proof.
  intros sc.
  assert (Hsc : forall p, scoreOf toLowerCase tokens p st = (Ok (sc p), st))
    by (intros p; apply scoreOf_eq).
  clearbody sc. revert best bestScore.
  induction ps as [|p ps IH]; intros best bestScore.
  - exists best, bestScore. simpl. split_and!; [done | lia | left; split; [lia|done]].
  - cbn [scan]. unfold bind at 1. rewrite Hsc.
    change (max_list_with sc (p :: ps)) with (sc p `max` max_list_with sc ps)%nat.
    destruct (bestScore <? sc p)%nat eqn:Hlt.
    + apply Nat.ltb_lt in Hlt.
      destruct (IH (Some p) (sc p)) as (b & s & -> & -> & Hcase).
      eexists _, _. split_and!; [done | lia |]. right. split; [lia|].
      destruct Hcase as [[Hle ->]|[Hgt (p0 & -> & i & Hi & Hs & Hfirst)]].
      * exists p. split; [done|]. exists 0%nat.
        split_and!; [done | lia | intros; lia].
      * exists p0. split; [done|]. exists (S i).
        split_and!; [done | done |].
        intros [|j] p' Hj Hp'; simpl in Hp'.
        -- injection Hp' as <-. lia.
        -- apply (Hfirst j); [lia | done].
    + apply Nat.ltb_ge in Hlt.
      destruct (IH best bestScore) as (b & s & -> & -> & Hcase).
      eexists _, _. split_and!; [done | lia |].
      destruct Hcase as [[Hle ->]|[Hgt (p0 & -> & i & Hi & Hs & Hfirst)]].
      * left. split; [lia | done].
      * right. split; [lia|]. exists p0. split; [done|]. exists (S i).
        split_and!; [done | lia |].
        intros [|j] p' Hj Hp'; simpl in Hp'.
        -- injection Hp' as <-. lia.
        -- specialize (Hfirst j p' ltac:(lia) Hp'). lia.
Qed.

(** [bestLibraryMatch] on a string need, in full. *)
Lemma bestLibraryMatch_string (need : jsstring) (st : state) :
  let sc := fun p => scoreTokens (haystack toLowerCase p)
                                 (tokensOf toLowerCase need) in
  let top := max_list_with sc (PROMPTS st) in
  exists r : option PromptRecord,
    bestLibraryMatch toLowerCase (VString need) st = (Ok r, st) /\
    (r = None <->
     normalized toLowerCase need = [] \/ PROMPTS st = [] \/ top = 0%nat) /\
    (forall p, r = Some p -> firstWithScore sc (PROMPTS st) top p).
Proof.
  intros sc top.
  pose proof (scan_spec (tokensOf toLowerCase need) (PROMPTS st) None 0 st)
    as (b & s & Hscan & Hs & Hcase).
  fold sc top in Hs, Hcase. clearbody top. clearbody sc.
  rewrite Nat.max_0_l in Hs. subst s. unfold tokensOf in Hscan.
  unfold bestLibraryMatch, bind at 1. rewrite normalize_string.
  remember (PROMPTS st) as prompts eqn:Hprompts.
  remember (normalized toLowerCase need) as q0 eqn:Hq0.
  destruct q0 as [|c q].
  { exists None. simpl. split_and!; [done | by split; [left|] | done]. }
  cbn [nonEmpty negb]. unfold bind at 1, readPROMPTS. rewrite <- Hprompts.
  destruct prompts as [|p0 ps].
  { exists None. simpl.
    split_and!; [done | by split; [right; left|] | done]. }
  cbn [List.length Nat.eqb]. unfold bind. rewrite Hscan.
  unfold ret. cbn [fst snd].
  destruct Hcase as [[Hle ->]|[Hgt (p & -> & Hfirst)]].
  - assert (top = 0)%nat as -> by lia. simpl.
    exists None. split_and!; [done | split; [by right; right | done] | done].
  - destruct (0 <? top)%nat eqn:Hpos; [|apply Nat.ltb_ge in Hpos; lia].
    exists (Some p). split_and!; [done | | by intros ? [= <-]].
    split; [done|]. intros [?|[?|?]]; [done | done | lia].
Qed.

(** C2.  On a string need, [bestLibraryMatch] returns null exactly when
    the normalized need is empty, or the library is empty, or the best
    score over all records is 0; otherwise it returns the first record, in
    library order, whose score is the maximum.  The score [sc p] is the one
    the loop computes for the record [p]. *)
Theorem bestLibraryMatch_first_max (need : jsstring) (st : state) :
  let sc := fun p => scoreTokens (haystack toLowerCase p)
                                 (tokensOf toLowerCase need) in
  let top := max_list_with sc (PROMPTS st) in
  exists r : option PromptRecord,
    bestLibraryMatch toLowerCase (VString need) st = (Ok r, st) /\
    (r = None <->
     normalized toLowerCase need = [] \/ PROMPTS st = [] \/ top = 0%nat) /\
    (forall p, r = Some p -> firstWithScore sc (PROMPTS st) top p) /\
    (forall p st', scoreOf toLowerCase (tokensOf toLowerCase need) p st' =
                   (Ok (sc p), st')).
Proof.
  intros sc top.
  destruct (bestLibraryMatch_string need st) as (r & Hr & Hnone & Hsome).
  exists r. split_and!; [done | done | done |].
  intros p st'. apply scoreOf_eq.
Qed.

Lemma orEmpty_default (f : option jsstring) : orEmpty f = default [] f.
Proof. by destruct f as [[|c s]|]. Qed.

Lemma matchingTokens_app (hay : jsstring) (ts1 ts2 : list jsstring) :
  matchingTokens hay (ts1 ++ ts2) =
  (matchingTokens hay ts1 + matchingTokens hay ts2)%nat.
Proof.
  unfold matchingTokens. by rewrite List.filter_app, length_app.
Qed.

Lemma matchingTokens_replicate (hay tok : jsstring) (k : nat) :
  includes hay tok = true -> matchingTokens hay (replicate k tok) = k.
Proof.
  intros H. unfold matchingTokens.
  induction k as [|k IH]; simpl; [done|]. rewrite H. simpl. by rewrite IH.
Qed.

(** C3, amended.  The score the loop gives a record is the number of
    entries of the raw token list of the normalized need that occur as a
    substring of the haystack, where the haystack is the normalization of
    title, instruction and output joined by single spaces, a missing field
    counting as the empty string.  A token that occurs in the haystack and
    is repeated [k] times in the query adds [k]; matching is substring
    containment. *)
Theorem scoreOf_counts_tokens (need : jsstring) (p : PromptRecord)
  (st : state) :
  let tokens := tokensOf toLowerCase need in
  let hay := normalized toLowerCase
               (default [] (title p) ++ sp ++ default [] (instruction p) ++
                sp ++ default [] (output p)) in
  scoreOf toLowerCase tokens p st = (Ok (matchingTokens hay tokens), st) /\
  (forall tok, includes hay tok = true <-> occursIn tok hay) /\
  (forall tok k before after,
     occursIn tok hay ->
     scoreTokens hay (before ++ replicate k tok ++ after) =
     (scoreTokens hay before + k + scoreTokens hay after)%nat).
Proof.
  intros tokens hay. split_and!.
  - rewrite scoreOf_eq, scoreTokens_count. unfold haystack.
    by rewrite !orEmpty_default.
  - intros tok. apply includes_spec.
  - intros tok k before after Htok. apply includes_spec in Htok.
    rewrite !scoreTokens_count, !matchingTokens_app.
    rewrite matchingTokens_replicate by done. lia.
Qed.

(** C9.  Whatever value is passed for the need, [bestLibraryMatch] leaves
    the state, hence the library, as it found it, and a record it returns
    is an element of the library. *)
Theorem bestLibraryMatch_returns_library_record (need : value) (st : state) :
  snd (bestLibraryMatch toLowerCase need st) = st /\
  forall p, fst (bestLibraryMatch toLowerCase need st) = Ok (Some p) ->
            p ∈ PROMPTS st.
Proof.
  destruct (normalize_value need) as [[s Hs]|Hthrow].
  - assert (bestLibraryMatch toLowerCase need =
            bestLibraryMatch toLowerCase (VString s)) as ->
      by (unfold bestLibraryMatch; by rewrite Hs).
    destruct (bestLibraryMatch_string s st) as (r & -> & _ & Hsome).
    split; [done|]. simpl. intros p [= ->].
    destruct (Hsome p eq_refl) as (i & Hi & _).
    by eapply list_elem_of_lookup_2.
  - unfold bestLibraryMatch, bind. rewrite Hthrow. by split.
Qed.

(** ** The intent switch *)

(** Membership of a tag in the list of the registered ones. *)
Ltac tag_in_list :=
  repeat first [apply list_elem_of_here | apply list_elem_of_further].

Lemma intentSwitch_default (intent need tone length format : jsstring) :
  intent ∉ [lit "ooo"; lit "status_update"; lit "product_req"; lit "prd"] ->
  intentSwitch intent need tone length format =
  buildGenericPrompt need tone length format.
Proof.
  intros H. unfold intentSwitch.
  repeat (case_bool_decide as Heq;
          [exfalso; apply H; rewrite Heq; tag_in_list | clear Heq]).
  reflexivity.
Qed.

(** C7.  For a need that is not empty once trimmed, the click handler
    produces a [{title, text}] pair: the one built by the builder of the
    detected intent, each of the four registered tags having its own
    builder and "generic" the generic one.  The switch sends every other
    intent value to the generic builder as well. *)
Theorem generate_dispatch (needInput tone length format : jsstring)
  (st : state) :
  trim needInput <> [] ->
  let need := trim needInput in
  (exists intent g,
     detectIntent toLowerCase (VString need) st = (Ok intent, st) /\
     onGenerateFromNeed toLowerCase needInput tone length format st =
       (Ok g, st) /\
     (intent = lit "ooo" ->
      buildOOOPrompt need tone length format st = (Ok g, st)) /\
     (intent = lit "status_update" ->
      buildStatusUpdatePrompt need tone length format st = (Ok g, st)) /\
     (intent = lit "product_req" ->
      buildProductReqPrompt need tone length format st = (Ok g, st)) /\
     (intent = lit "prd" ->
      buildPrdPrompt need tone length format st = (Ok g, st)) /\
     (intent ∉ [lit "ooo"; lit "status_update"; lit "product_req"; lit "prd"] ->
      buildGenericPrompt need tone length format st = (Ok g, st))) /\
  (forall intent,
     intent ∉ [lit "ooo"; lit "status_update"; lit "product_req"; lit "prd"] ->
     intentSwitch intent need tone length format =
     buildGenericPrompt need tone length format).
Proof.
  intros Hne need. split; [|intros intent; apply intentSwitch_default].
  unfold onGenerateFromNeed. fold need.
  destruct need as [|c need'] eqn:Hneed; [done|]. cbn [nonEmpty negb].
  unfold bind. rewrite detectIntent_string. cbv zeta.
  set (n := normalized toLowerCase (c :: need')).
  destruct (test re_ooo n);
    [|destruct (test re_status_update n);
      [|destruct (test re_product_req n); [|destruct (test re_prd n)]]];
    eexists _, _; (split; [reflexivity|]); (split; [reflexivity|]);
    split_and!; intros Hi;
    first [ reflexivity
          | exfalso; apply Hi; tag_in_list; fail
          | vm_compute in Hi; discriminate Hi ].
Qed.

(** ** Empty, blank and unrelated needs *)

Lemma wordMatch_occursIn (ws : list jsstring) (n : jsstring) :
  wordMatch ws n -> exists w, w ∈ ws /\ occursIn w n.
Proof.
  intros (w & pre & post & Hw & Hn & _). exists w. split; [done|].
  by exists pre, post.
Qed.

(** A need in which none of the phrases occurs is "generic". *)
Lemma detectIntent_unrelated (need : jsstring) (st : state) :
  (forall w,
     w ∈ ooo_words ++ status_update_words ++ product_req_words ++ prd_words ->
     ~ occursIn w (normalized toLowerCase need)) ->
  detectIntent toLowerCase (VString need) st = (Ok (lit "generic"), st).
Proof.
  intros Hnone. rewrite detectIntent_string. cbv zeta.
  set (n := normalized toLowerCase need) in *.
  assert (Hno : forall ws,
    ws ⊆ ooo_words ++ status_update_words ++ product_req_words ++ prd_words ->
    ws <> [] -> test (wordsOf ws) n = false).
  { intros ws Hsub Hne. apply not_true_is_false. intros Ht.
    apply test_wordsOf in Ht; [|done].
    apply wordMatch_occursIn in Ht as (w & Hw & Hocc).
    by apply (Hnone w); [apply Hsub|]. }
  unfold re_ooo, re_status_update, re_product_req, re_prd.
  rewrite !Hno;
    solve [done | intros w Hw; rewrite !elem_of_app; tauto].
Qed.

Lemma asciiLower_whitespace (c : N) :
  isWhiteSpace c = true -> asciiLower c = c.
Proof.
  unfold asciiLower, isWhiteSpace. intros H.
  destruct ((65 <=? c)%N && (c <=? 90)%N) eqn:E; [|done].
  apply andb_true_iff in E as [E1 E2].
  apply N.leb_le in E1, E2.
  repeat (apply orb_true_iff in H as [H|H]);
    try (apply N.eqb_eq in H; lia).
  apply andb_true_iff in H as [H _]. apply N.leb_le in H. lia.
Qed.

Hypothesis toLowerCase_ascii : lowersAscii toLowerCase.

Lemma normalized_blank (s : jsstring) :
  forallb isWhiteSpace s = true -> normalized toLowerCase s = [].
Proof.
  intros H. unfold normalized. rewrite toLowerCase_ascii.
  - apply trim_whitespace. rewrite forallb_forall in *.
    intros c [d [<- Hd]]%in_map_iff.
    rewrite asciiLower_whitespace; by apply H.
  - rewrite forallb_forall in *. intros c Hc.
    rewrite (H c Hc). by rewrite orb_true_r.
Qed.

Lemma detectIntent_blank (s : jsstring) (st : state) :
  forallb isWhiteSpace s = true ->
  detectIntent toLowerCase (VString s) st = (Ok (lit "generic"), st).
Proof.
  intros H. rewrite detectIntent_string, normalized_blank by done.
  reflexivity.
Qed.

Lemma bestLibraryMatch_blank (s : jsstring) (st : state) :
  forallb isWhiteSpace s = true ->
  bestLibraryMatch toLowerCase (VString s) st = (Ok None, st).
Proof.
  intros H. unfold bestLibraryMatch, bind.
  by rewrite normalize_string, normalized_blank.
Qed.

(** C6.  On string inputs the core functions return a value, never throw
    and leave the state alone; [detectIntent] answers "generic" for the
    empty string, for a string of white space only, and for a string in
    which none of the phrases occurs. *)
Theorem core_functions_total (s tone length format : jsstring)
  (p : PromptRecord) (st : state) :
  (exists tag, detectIntent toLowerCase (VString s) st = (Ok tag, st)) /\
  (exists r, bestLibraryMatch toLowerCase (VString s) st = (Ok r, st)) /\
  (exists g, buildOOOPrompt s tone length format st = (Ok g, st)) /\
  (exists g, buildGenericPrompt s tone length format st = (Ok g, st)) /\
  (exists g, buildStatusUpdatePrompt s tone length format st = (Ok g, st)) /\
  (exists g, buildProductReqPrompt s tone length format st = (Ok g, st)) /\
  (exists g, buildPrdPrompt s tone length format st = (Ok g, st)) /\
  (exists t, formatLibraryPrompt p st = (Ok t, st)) /\
  detectIntent toLowerCase (VString []) st = (Ok (lit "generic"), st) /\
  (forallb isWhiteSpace s = true ->
   detectIntent toLowerCase (VString s) st = (Ok (lit "generic"), st)) /\
  ((forall w,
     w ∈ ooo_words ++ status_update_words ++ product_req_words ++ prd_words ->
     ~ occursIn w (normalized toLowerCase s)) ->
   detectIntent toLowerCase (VString s) st = (Ok (lit "generic"), st)).
Proof.
  split_and!; try (eexists; reflexivity).
  - eexists. apply detectIntent_string.
  - destruct (bestLibraryMatch_string s st) as (r & Hr & _). by exists r.
  - by apply detectIntent_blank.
  - apply detectIntent_blank.
  - apply detectIntent_unrelated.
Qed.

(** C10.  A falsy need (undefined, null, false, a zero, NaN, the empty
    string) is normalized to the empty string: [detectIntent] then returns
    "generic" and [bestLibraryMatch] returns null, neither throws. *)
Theorem falsy_need (v : value) (st : state) :
  ToBoolean v = false ->
  normalize toLowerCase v st = (Ok [], st) /\
  detectIntent toLowerCase v st = (Ok (lit "generic"), st) /\
  bestLibraryMatch toLowerCase v st = (Ok None, st).
Proof.
  intros Hv. apply normalize_falsy in Hv. split_and!.
  - rewrite Hv, normalize_string. by rewrite normalized_blank.
  - assert (detectIntent toLowerCase v = detectIntent toLowerCase (VString []))
      as -> by (unfold detectIntent; by rewrite Hv).
    by apply detectIntent_blank.
  - assert (bestLibraryMatch toLowerCase v =
            bestLibraryMatch toLowerCase (VString [])) as ->
      by (unfold bestLibraryMatch; by rewrite Hv).
    by apply bestLibraryMatch_blank.
Qed.

(** The coercion stops at falsy values: a truthy need that is not a string
    makes both functions throw. *)
Lemma truthy_non_string_throws (v : value) (st : state) :
  ToBoolean v = true -> (forall s, v <> VString s) ->
  detectIntent toLowerCase v st = (Throw TypeError, st) /\
  bestLibraryMatch toLowerCase v st = (Throw TypeError, st).
Proof.
  intros Hv Hs.
  assert (normalize toLowerCase v st = (Throw TypeError, st)) as Hn.
  { unfold normalize. rewrite Hv. destruct v; try done. by destruct (Hs s). }
  unfold detectIntent, bestLibraryMatch, bind. by rewrite Hn.
Qed.

End Properties.

(** ** What the templates produce *)

Lemma occursIn_here (w post : jsstring) : occursIn w (w ++ post).
Proof. by exists [], post. Qed.

Lemma occursIn_end (w : jsstring) : occursIn w w.
Proof. exists [], []. by rewrite app_nil_r. Qed.

Lemma occursIn_skip (w a t : jsstring) : occursIn w t -> occursIn w (a ++ t).
Proof.
  intros (pre & post & ->). exists (a ++ pre), post. by rewrite app_assoc.
Qed.

(** Walks down a concatenation to the place where the string stands. *)
Ltac find_occurrence :=
  repeat first [apply occursIn_here | apply occursIn_end | apply occursIn_skip].

(** C4.  [buildOOOPrompt] returns, for any four strings, a pair whose
    title is the fixed string "Generated: Out-of-office message" and whose
    text contains the need, the tone, the length and the format as they
    were given. *)
Theorem buildOOOPrompt_echoes_inputs (need tone length format : jsstring)
  (st : state) :
  exists g : Gen.t,
    buildOOOPrompt need tone length format st = (Ok g, st) /\
    Gen.title g = lit "Generated: Out-of-office message" /\
    occursIn need (Gen.text g) /\
    occursIn tone (Gen.text g) /\
    occursIn length (Gen.text g) /\
    occursIn format (Gen.text g).
Proof.
  eexists. split; [reflexivity|]. cbn [Gen.title Gen.text].
  split_and!; [reflexivity | find_occurrence ..].
Qed.

(** C5.  [formatLibraryPrompt] returns, for every record, one text made of
    the five headers Instruction, Inputs, Output, Success criteria and
    Follow-up in this order, each followed by the field of the record or by
    nothing when the field is missing; it does not throw.  On a record with
    only a title the text is the five headers with empty bodies. *)
Theorem formatLibraryPrompt_sections (p : PromptRecord) (st : state)
  (t : option jsstring) :
  formatLibraryPrompt p st =
    (Ok (lit "Instruction:" ++ nl ++ default [] (instruction p) ++ nl ++ nl ++
         lit "Inputs:" ++ nl ++ default [] (inputs p) ++ nl ++ nl ++
         lit "Output:" ++ nl ++ default [] (output p) ++ nl ++ nl ++
         lit "Success criteria:" ++ nl ++ default [] (success_criteria p) ++
         nl ++ nl ++
         lit "Follow-up:" ++ nl ++ default [] (follow_up p)), st) /\
  formatLibraryPrompt
    {| title := t; instruction := None; inputs := None; output := None;
       success_criteria := None; follow_up := None |} st =
    (Ok (lit "Instruction:" ++ nl ++ nl ++ nl ++
         lit "Inputs:" ++ nl ++ nl ++ nl ++
         lit "Output:" ++ nl ++ nl ++ nl ++
         lit "Success criteria:" ++ nl ++ nl ++ nl ++
         lit "Follow-up:" ++ nl), st).
Proof.
  split; [|reflexivity].
  unfold formatLibraryPrompt, ret. by rewrite !orEmpty_default.
Qed.

(** C8.  Each builder is a function of its four arguments alone: called
    twice with the same arguments, in whatever states of the script, it
    returns the same [{title, text}] and changes nothing. *)
Theorem builders_deterministic (need tone length format : jsstring)
  (st1 st2 : state) :
  (exists g, buildOOOPrompt need tone length format st1 = (Ok g, st1) /\
             buildOOOPrompt need tone length format st2 = (Ok g, st2)) /\
  (exists g, buildGenericPrompt need tone length format st1 = (Ok g, st1) /\
             buildGenericPrompt need tone length format st2 = (Ok g, st2)) /\
  (exists g, buildStatusUpdatePrompt need tone length format st1 = (Ok g, st1) /\
             buildStatusUpdatePrompt need tone length format st2 = (Ok g, st2)) /\
  (exists g, buildProductReqPrompt need tone length format st1 = (Ok g, st1) /\
             buildProductReqPrompt need tone length format st2 = (Ok g, st2)) /\
  (exists g, buildPrdPrompt need tone length format st1 = (Ok g, st1) /\
             buildPrdPrompt need tone length format st2 = (Ok g, st2)).
Proof. split_and!; eexists; split; reflexivity. Qed.

(** ** The functions at work on concrete inputs *)

Lemma asciiToLowerCase_lowersAscii : lowersAscii asciiToLowerCase.
Proof. intros s _. reflexivity. Qed.

Example detectIntent_ooo_next_week :
  detectIntent asciiToLowerCase (VString (lit "I'll be OOO next week"))
    (library []) = (Ok (lit "ooo"), library []).
Proof. vm_compute. reflexivity. Qed.

Example detectIntent_launch_party :
  detectIntent asciiToLowerCase (VString (lit "help me plan a launch party"))
    (library []) = (Ok (lit "generic"), library []).
Proof. vm_compute. reflexivity. Qed.

(** The phrase must stand between word boundaries: "looops" has no
    out-of-office match, "ac" alone is a product-requirement match. *)
Example detectIntent_word_boundaries :
  detectIntent asciiToLowerCase (VString (lit "looops")) (library []) =
    (Ok (lit "generic"), library []) /\
  detectIntent asciiToLowerCase (VString (lit "define the AC")) (library []) =
    (Ok (lit "product_req"), library []) /\
  detectIntent asciiToLowerCase (VString (lit "backlog")) (library []) =
    (Ok (lit "generic"), library []).
Proof. vm_compute. by split_and!. Qed.

Example detectIntent_metacharacters :
  detectIntent asciiToLowerCase (VString (lit ".*+?^$\{}()|[] (ooo")) (library [])
    = (Ok (lit "ooo"), library []) /\
  detectIntent asciiToLowerCase (VString (lit ".*+?^$\{}()|[]")) (library [])
    = (Ok (lit "generic"), library []).
Proof. vm_compute. by split. Qed.

Example bestLibraryMatch_empty_inputs :
  bestLibraryMatch asciiToLowerCase (VString []) (library [sprintRecord]) =
    (Ok None, library [sprintRecord]) /\
  bestLibraryMatch asciiToLowerCase (VString (lit "anything")) (library []) =
    (Ok None, library []).
Proof. vm_compute. by split. Qed.

Example bestLibraryMatch_sprint :
  bestLibraryMatch asciiToLowerCase (VString (lit "help me plan a sprint"))
    (library [sprintRecord]) = (Ok (Some sprintRecord), library [sprintRecord]) /\
  scoreOf asciiToLowerCase (tokensOf asciiToLowerCase (lit "help me plan a sprint"))
    sprintRecord (library []) = (Ok 3%nat, library []).
Proof. vm_compute. by split. Qed.

(** Substring containment: "plan" scores on "planning". *)
Example bestLibraryMatch_substring :
  bestLibraryMatch asciiToLowerCase (VString (lit "plan"))
    (library [recordA; recordB]) =
  (Ok (Some recordB), library [recordA; recordB]).
Proof. vm_compute. reflexivity. Qed.

(** Equal scores: the earlier record wins. *)
Example bestLibraryMatch_tie :
  bestLibraryMatch asciiToLowerCase (VString (lit "planning"))
    (library [recordB; sprintRecord]) =
  (Ok (Some recordB), library [recordB; sprintRecord]).
Proof. vm_compute. reflexivity. Qed.

Example normalize_truthy_number :
  normalize asciiToLowerCase (VNumber (Dyadic 5 0)) (library []) =
  (Throw TypeError, library []).
Proof. reflexivity. Qed.

(** ** Instances of the theorems *)

Lemma detectIntent_first_match_witness :
  let need := lit "weekly update: I'll be OOO Friday" in
  wordMatch ooo_words (normalized asciiToLowerCase need) /\
  wordMatch status_update_words (normalized asciiToLowerCase need) /\
  detectIntent asciiToLowerCase (VString need) (library []) =
    (Ok (lit "ooo"), library []).
Proof.
  intros need.
  assert (Hooo : wordMatch ooo_words (normalized asciiToLowerCase need))
    by (apply test_wordsOf; [done | vm_compute; reflexivity]).
  assert (Hst : wordMatch status_update_words (normalized asciiToLowerCase need))
    by (apply test_wordsOf; [done | vm_compute; reflexivity]).
  split_and!; [done | done |].
  destruct (detectIntent_first_match asciiToLowerCase need (library []))
    as (tag & Hd & _ & _ & _ & _ & _ & Hboth).
  rewrite Hd, Hboth; [reflexivity | by split].
Defined.

Lemma bestLibraryMatch_first_max_witness :
  let sc := fun p => scoreTokens (haystack asciiToLowerCase p)
                       (tokensOf asciiToLowerCase (lit "planning")) in
  bestLibraryMatch asciiToLowerCase (VString (lit "planning"))
    (library [recordA; recordB]) =
    (Ok (Some recordB), library [recordA; recordB]) /\
  firstWithScore sc [recordA; recordB] 1 recordB.
Proof.
  intros sc.
  destruct (bestLibraryMatch_first_max asciiToLowerCase (lit "planning")
              (library [recordA; recordB])) as (r & Hr & _ & Hsome & _).
  assert (r = Some recordB) as ->
    by (vm_compute in Hr; by injection Hr as <-).
  split; [exact Hr | exact (Hsome recordB eq_refl)].
Defined.

Lemma scoreOf_counts_tokens_witness :
  let hay := normalized asciiToLowerCase
               (lit "Sprint planning" ++ sp ++ lit "plan a sprint" ++ sp ++
                lit "backlog") in
  occursIn (lit "plan") hay /\
  scoreOf asciiToLowerCase (tokensOf asciiToLowerCase (lit "Plan  plan backlog"))
    sprintRecord (library []) = (Ok 3%nat, library []) /\
  scoreTokens hay ([lit "a"] ++ replicate 2 (lit "plan") ++ [lit "backlog"]) =
    (scoreTokens hay [lit "a"] + 2 + scoreTokens hay [lit "backlog"])%nat.
Proof.
  intros hay.
  assert (Hocc : occursIn (lit "plan") hay)
    by (apply includes_spec; vm_compute; reflexivity).
  destruct (scoreOf_counts_tokens asciiToLowerCase (lit "Plan  plan backlog")
              sprintRecord (library [])) as (Hscore & _ & Hrep).
  split_and!; [done | by rewrite Hscore | exact (Hrep _ 2%nat _ _ Hocc)].
Defined.

(** C3 as stated: with the haystack taken as the plain concatenation of
    the three fields the count differs from the score.  The need "bc" has
    the one token "bc"; it occurs in "abcd" but not in "ab cd". *)
Lemma scoreOf_concat_counterexample :
  ~ (forall (toLowerCase : jsstring -> jsstring) (need : jsstring)
            (p : PromptRecord) (st : state),
       lowersAscii toLowerCase ->
       scoreOf toLowerCase (tokensOf toLowerCase need) p st =
       (Ok (matchingTokens (concatHaystack toLowerCase p)
                           (tokensOf toLowerCase need)), st)).
Proof.
  intros H.
  specialize (H asciiToLowerCase (lit "bc") splitRecord (library [])
                asciiToLowerCase_lowersAscii).
  vm_compute in H. discriminate H.
Qed.

Lemma core_functions_total_witness :
  lowersAscii asciiToLowerCase /\
  forallb isWhiteSpace (lit "   ") = true /\
  detectIntent asciiToLowerCase (VString (lit "   ")) (library [sprintRecord]) =
    (Ok (lit "generic"), library [sprintRecord]).
Proof.
  split_and!; [exact asciiToLowerCase_lowersAscii | reflexivity |].
  destruct (core_functions_total asciiToLowerCase asciiToLowerCase_lowersAscii
              (lit "   ") [] [] [] sprintRecord (library [sprintRecord]))
    as (_ & _ & _ & _ & _ & _ & _ & _ & _ & Hblank & _).
  apply Hblank. reflexivity.
Defined.

Lemma generate_dispatch_witness :
  trim (lit " write a PRD ") <> [] /\
  onGenerateFromNeed asciiToLowerCase (lit " write a PRD ") (lit "direct")
    (lit "short") (lit "doc") (library []) =
  buildPrdPrompt (lit "write a PRD") (lit "direct") (lit "short") (lit "doc")
    (library []).
Proof.
  assert (Hne : trim (lit " write a PRD ") <> []) by (vm_compute; discriminate).
  split; [exact Hne|].
  destruct (generate_dispatch asciiToLowerCase (lit " write a PRD ")
              (lit "direct") (lit "short") (lit "doc") (library []) Hne)
    as [(intent & g & Hd & Hg & _ & _ & _ & Hprd & _) _].
  assert (intent = lit "prd") as Hi
    by (vm_compute in Hd; by injection Hd as <-).
  rewrite Hg. symmetry. exact (Hprd Hi).
Defined.

Lemma bestLibraryMatch_returns_library_record_witness :
  snd (bestLibraryMatch asciiToLowerCase (VString (lit "planning"))
         (library [recordA; recordB])) = library [recordA; recordB] /\
  recordB ∈ PROMPTS (library [recordA; recordB]).
Proof.
  destruct (bestLibraryMatch_returns_library_record asciiToLowerCase
              (VString (lit "planning")) (library [recordA; recordB]))
    as [Hst Hin].
  split; [exact Hst | apply Hin; vm_compute; reflexivity].
Defined.

Lemma falsy_need_witness :
  lowersAscii asciiToLowerCase /\
  ToBoolean (VNumber NaN) = false /\
  detectIntent asciiToLowerCase (VNumber NaN) (library [sprintRecord]) =
    (Ok (lit "generic"), library [sprintRecord]) /\
  bestLibraryMatch asciiToLowerCase (VNumber NaN) (library [sprintRecord]) =
    (Ok None, library [sprintRecord]).
Proof.
  split_and!; [exact asciiToLowerCase_lowersAscii | reflexivity | |];
    apply (falsy_need asciiToLowerCase asciiToLowerCase_lowersAscii
             (VNumber NaN) (library [sprintRecord]) eq_refl).
Defined.

(** * Further properties of the script *)

(** ** Trimming and lowering *)

Lemma trimStart_head (s r : jsstring) (c : N) :
  trimStart s = c :: r -> isWhiteSpace c = false.
Proof.
  induction s as [|d s IH]; simpl; [done|].
  destruct (isWhiteSpace d) eqn:Hd; [done|]. by intros [= <- _].
Qed.

Lemma trimStart_decomp (s : jsstring) :
  exists l, s = l ++ trimStart s /\ forallb isWhiteSpace l = true.
Proof.
  induction s as [|d s (l & Hl & Hws)]; simpl; [by exists []|].
  destruct (isWhiteSpace d) eqn:Hd; [|by exists []].
  exists (d :: l). simpl. rewrite Hd, Hws. by rewrite <- Hl.
Qed.

Lemma trimStart_fixed (s : jsstring) :
  match s with c :: _ => isWhiteSpace c = false | [] => True end ->
  trimStart s = s.
Proof. destruct s as [|c s]; simpl; [done|]. by intros ->. Qed.

Lemma trimStart_idem (s : jsstring) : trimStart (trimStart s) = trimStart s.
Proof.
  apply trimStart_fixed. destruct (trimStart s) as [|c r] eqn:H; [done|].
  by eapply trimStart_head.
Qed.

Lemma forallb_rev (f : N -> bool) (l : jsstring) :
  forallb f (rev l) = forallb f l.
Proof.
  induction l as [|c l IH]; simpl; [done|].
  rewrite forallb_app, IH. simpl. rewrite andb_true_r. apply andb_comm.
Qed.

Lemma trimEnd_decomp (s : jsstring) :
  exists r, s = trimEnd s ++ r /\ forallb isWhiteSpace r = true.
Proof.
  destruct (trimStart_decomp (rev s)) as (l & Hl & Hws).
  exists (rev l). split; [|by rewrite forallb_rev].
  unfold trimEnd. rewrite <- rev_app_distr, <- Hl. by rewrite rev_involutive.
Qed.

Lemma trimEnd_idem (s : jsstring) : trimEnd (trimEnd s) = trimEnd s.
Proof. unfold trimEnd. by rewrite rev_involutive, trimStart_idem. Qed.

(** [trim] leaves nothing to trim. *)
Lemma trim_idem (s : jsstring) : trim (trim s) = trim s.
Proof.
  unfold trim. set (t := trimStart s).
  assert (Ht : trimStart (trimEnd t) = trimEnd t).
  { apply trimStart_fixed.
    destruct (trimEnd_decomp t) as (r & Hr & _).
    destruct (trimEnd t) as [|c u]; [done|].
    unfold t in Hr. simpl in Hr. by apply trimStart_head in Hr. }
  by rewrite Ht, trimEnd_idem.
Qed.

(** A non-empty trimmed string has a code unit that is not white space. *)
Lemma trim_nonblank (s : jsstring) :
  trim s <> [] -> forallb isWhiteSpace (trim s) = false.
Proof.
  intros Hne. unfold trim, trimEnd in *.
  destruct (trimStart (rev (trimStart s))) as [|c r] eqn:H; [done|].
  apply trimStart_head in H. rewrite forallb_rev. simpl. by rewrite H.
Qed.

Ltac not_in_table :=
  repeat match goal with
         | |- context [(?a =? ?b)%N] =>
             replace (a =? b)%N with false by (symmetry; apply N.eqb_neq; lia)
         | |- context [(?a <=? ?b)%N] =>
             first [ replace (a <=? b)%N with false
                       by (symmetry; apply N.leb_gt; lia)
                   | replace (a <=? b)%N with true
                       by (symmetry; apply N.leb_le; lia) ]
         end.

Lemma isWhiteSpace_asciiLower (c : N) :
  isWhiteSpace (asciiLower c) = isWhiteSpace c.
Proof.
  unfold asciiLower. destruct ((65 <=? c)%N && (c <=? 90)%N) eqn:E; [|done].
  apply andb_true_iff in E as [E1 E2]. apply N.leb_le in E1, E2.
  unfold isWhiteSpace. not_in_table. reflexivity.
Qed.

Lemma asciiLower_idem (c : N) : asciiLower (asciiLower c) = asciiLower c.
Proof.
  unfold asciiLower. destruct ((65 <=? c)%N && (c <=? 90)%N) eqn:E; [|by rewrite E].
  apply andb_true_iff in E as [E1 E2]. apply N.leb_le in E1, E2.
  not_in_table. reflexivity.
Qed.

Lemma isAscii_asciiLower (c : N) : isAscii (asciiLower c) = isAscii c.
Proof.
  unfold asciiLower, isAscii.
  destruct ((65 <=? c)%N && (c <=? 90)%N) eqn:E; [|done].
  apply andb_true_iff in E as [E1 E2]. apply N.leb_le in E1, E2.
  transitivity true; [|symmetry]; apply N.ltb_lt; lia.
Qed.

Lemma trimStart_lower (s : jsstring) :
  trimStart (map asciiLower s) = map asciiLower (trimStart s).
Proof.
  induction s as [|c s IH]; simpl; [done|].
  rewrite isWhiteSpace_asciiLower. by destruct (isWhiteSpace c).
Qed.

Lemma trim_lower (s : jsstring) :
  trim (map asciiLower s) = map asciiLower (trim s).
Proof.
  unfold trim, trimEnd.
  by rewrite trimStart_lower, <- map_rev, trimStart_lower, map_rev.
Qed.

Lemma asciiText_lower (s : jsstring) :
  asciiText (map asciiLower s) = asciiText s.
Proof.
  unfold asciiText. induction s as [|c s IH]; simpl; [done|].
  by rewrite IH, isAscii_asciiLower, isWhiteSpace_asciiLower.
Qed.

Lemma asciiText_app (a b : jsstring) :
  asciiText (a ++ b) = asciiText a && asciiText b.
Proof. apply forallb_app. Qed.

Lemma asciiText_trim (s : jsstring) : asciiText s = true -> asciiText (trim s) = true.
Proof.
  intros H. unfold trim.
  destruct (trimStart_decomp s) as (l & Hl & _).
  destruct (trimEnd_decomp (trimStart s)) as (r & Hr & _).
  rewrite Hl, Hr, !asciiText_app in H.
  apply andb_true_iff in H as [_ H]. by apply andb_true_iff in H as [H _].
Qed.

(** ** Tokens *)

(** The pieces of a split, glued together, are the string without its
    white space.  (While a separator run goes on the current piece is
    empty.) *)
Lemma splitWs_concat (inSep : bool) (cur s : jsstring) :
  (inSep = true -> cur = []) ->
  concat (splitWs inSep cur s) =
  cur ++ List.filter (fun c => negb (isWhiteSpace c)) s.
Proof.
  revert inSep cur. induction s as [|c s IH]; intros inSep cur Hcur; simpl.
  - by rewrite app_nil_r.
  - destruct (isWhiteSpace c); simpl.
    + destruct inSep; simpl; rewrite IH by done; [|done].
      by rewrite Hcur.
    + rewrite IH by done. by rewrite <- app_assoc.
Qed.



Lemma concat_filterBoolean (xs : list jsstring) :
  concat (filterBoolean xs) = concat xs.
Proof.
  induction xs as [|x xs IH]; simpl; [done|].
  destruct x; simpl; by rewrite IH.
Qed.

Lemma filter_nonblank_nil (s : jsstring) :
  List.filter (fun c => negb (isWhiteSpace c)) s = [] ->
  forallb isWhiteSpace s = true.
Proof.
  induction s as [|c s IH]; simpl; [done|].
  destruct (isWhiteSpace c); simpl; [done | discriminate].
Qed.

Lemma tokensOf_concat (toLowerCase : jsstring -> jsstring)
  (need : jsstring) :
  concat (tokensOf toLowerCase need) =
  List.filter (fun c => negb (isWhiteSpace c)) (normalized toLowerCase need).
Proof.
  unfold tokensOf, split_ws. by rewrite concat_filterBoolean, splitWs_concat.
Qed.


Lemma tokensOf_nil_iff (toLowerCase : jsstring -> jsstring)
  (need : jsstring) :
  tokensOf toLowerCase need = [] <-> normalized toLowerCase need = [].
Proof.
  split; [|by unfold tokensOf; intros ->].
  intros Hnil. pose proof (tokensOf_concat toLowerCase need) as Hcat.
  rewrite Hnil in Hcat. symmetry in Hcat.
  apply filter_nonblank_nil in Hcat.
  destruct (decide (normalized toLowerCase need = [])) as [|Hne]; [done|].
  unfold normalized in *. apply trim_nonblank in Hne. congruence.
Qed.


(** ** More on the library matcher *)

Lemma max_list_with_le {A} (f : A -> nat) (l : list A) (x : A) :
  x ∈ l -> (f x <= max_list_with f l)%nat.
Proof. induction 1; simpl; lia. Qed.

Lemma max_list_with_zero {A} (f : A -> nat) (l : list A) :
  max_list_with f l = 0%nat <-> forall x, x ∈ l -> f x = 0%nat.
Proof.
  split.
  - intros H x Hx. apply (max_list_with_le f) in Hx. lia.
  - induction l as [|a l IH]; intros H; simpl; [done|].
    rewrite (H a) by apply list_elem_of_here.
    rewrite IH; [done|]. intros x Hx. apply H. by apply list_elem_of_further.
Qed.

Lemma matchingTokens_zero (hay : jsstring) (tokens : list jsstring) :
  matchingTokens hay tokens = 0%nat <->
  forall tok, tok ∈ tokens -> ~ occursIn tok hay.
Proof.
  unfold matchingTokens. induction tokens as [|t ts IH]; simpl.
  - split; [intros _ tok Hin; by apply elem_of_nil in Hin | done].
  - destruct (includes hay t) eqn:Ht; simpl.
    + split; [done|]. intros H. exfalso.
      apply (H t); [apply list_elem_of_here | by apply includes_spec].
    + rewrite IH. split.
      * intros H tok [->|Hin]%elem_of_cons; [|by apply H].
        rewrite <- includes_spec. congruence.
      * intros H tok Hin. apply H. by apply list_elem_of_further.
Qed.

Lemma matchingTokens_perm (hay : jsstring) (ts1 ts2 : list jsstring) :
  ts1 ≡ₚ ts2 -> matchingTokens hay ts1 = matchingTokens hay ts2.
Proof.
  unfold matchingTokens. induction 1 as [|t ts ts' _ IH|t t' ts|]; simpl.
  - done.
  - destruct (includes hay t); simpl; by rewrite IH.
  - by destruct (includes hay t), (includes hay t').
  - congruence.
Qed.

Lemma firstWithScore_unique (sc : PromptRecord -> nat)
  (ps : list PromptRecord) (m : nat) (p p' : PromptRecord) :
  firstWithScore sc ps m p -> firstWithScore sc ps m p' -> p = p'.
Proof.
  intros (i & Hi & Hs & Hlt) (i' & Hi' & Hs' & Hlt').
  destruct (Nat.lt_trichotomy i i') as [H|[->|H]].
  - specialize (Hlt' i p H Hi). lia.
  - congruence.
  - specialize (Hlt i' p' H Hi'). lia.
Qed.

Section Matcher.

Variable toLowerCase : jsstring -> jsstring.

(** X2.  [bestLibraryMatch] returns null exactly when no token of the need
    occurs in the haystack of any record of the library; a record it
    returns contains at least one token of the need, and no record of the
    library contains more of the tokens (counted with repetition). *)
Theorem bestLibraryMatch_null_iff (need : jsstring) (st : state) :
  (bestLibraryMatch toLowerCase (VString need) st = (Ok None, st) <->
   forall p tok, p ∈ PROMPTS st -> tok ∈ tokensOf toLowerCase need ->
                 ~ occursIn tok (haystack toLowerCase p)) /\
  (forall p,
     bestLibraryMatch toLowerCase (VString need) st = (Ok (Some p), st) ->
     (exists tok, tok ∈ tokensOf toLowerCase need /\
                  occursIn tok (haystack toLowerCase p)) /\
     forall p', p' ∈ PROMPTS st ->
       (matchingTokens (haystack toLowerCase p') (tokensOf toLowerCase need) <=
        matchingTokens (haystack toLowerCase p) (tokensOf toLowerCase need))%nat).
Proof.
  destruct (bestLibraryMatch_string toLowerCase need st)
    as (r & Hr & Hnone & Hsome).
  cbv zeta in Hnone, Hsome.
  set (sc := fun p => scoreTokens (haystack toLowerCase p)
                                  (tokensOf toLowerCase need)) in *.
  set (top := max_list_with sc (PROMPTS st)) in *.
  assert (Hzero : top = 0%nat <->
    forall p tok, p ∈ PROMPTS st -> tok ∈ tokensOf toLowerCase need ->
                  ~ occursIn tok (haystack toLowerCase p)).
  { unfold top. rewrite max_list_with_zero. unfold sc.
    split; intros H p.
    - intros tok Hp. specialize (H p Hp).
      rewrite scoreTokens_count, matchingTokens_zero in H. by apply H.
    - intros Hp. rewrite scoreTokens_count, matchingTokens_zero.
      intros tok. by apply H. }
  assert (Htop : r = None <-> top = 0%nat).
  { rewrite Hnone. split; [|by right; right].
    intros [Hq|[Hps|Ht]]; [| |done].
    - apply Hzero. intros p tok _.
      apply tokensOf_nil_iff in Hq. rewrite Hq. by intros ?%elem_of_nil.
    - unfold top. by rewrite Hps. }
  rewrite Hr. split.
  - rewrite <- Hzero, <- Htop. split; [by intros [= ->] | by intros ->].
  - intros p [= ->]. destruct (Hsome p eq_refl) as (i & Hi & Hs & _).
    split.
    + destruct (decide (top = 0%nat)) as [H0|Hpos].
      { apply Htop in H0. discriminate. }
      unfold sc in Hs. rewrite scoreTokens_count in Hs.
      unfold matchingTokens in Hs.
      destruct (List.filter _ _) as [|tok l] eqn:Hf; [simpl in Hs; lia|].
      assert (Hin : In tok (List.filter
                (fun tok => includes (haystack toLowerCase p) tok)
                (tokensOf toLowerCase need))) by (rewrite Hf; by left).
      apply filter_In in Hin as [Hin Hinc].
      exists tok. split; [by apply list_elem_of_In | by apply includes_spec].
    + intros p' Hp'. rewrite <- !scoreTokens_count. fold (sc p') (sc p).
      rewrite Hs. by apply max_list_with_le.
Qed.

Lemma scan_cons (tokens : list jsstring) (p : PromptRecord)
  (ps : list PromptRecord) (best : option PromptRecord) (bestScore : nat)
  (st : state) :
  scan toLowerCase tokens (p :: ps) best bestScore st =
  if (bestScore <? scoreTokens (haystack toLowerCase p) tokens)%nat
  then scan toLowerCase tokens ps (Some p)
            (scoreTokens (haystack toLowerCase p) tokens) st
  else scan toLowerCase tokens ps best bestScore st.
Proof.
  cbn [scan]. unfold bind at 1. rewrite scoreOf_eq.
  by destruct (_ <? _)%nat.
Qed.

Lemma scan_same_scores (ts1 ts2 : list jsstring) (ps : list PromptRecord)
  (best : option PromptRecord) (bestScore : nat) (st : state) :
  (forall hay, scoreTokens hay ts1 = scoreTokens hay ts2) ->
  scan toLowerCase ts1 ps best bestScore st =
  scan toLowerCase ts2 ps best bestScore st.
Proof.
  intros H. revert best bestScore.
  induction ps as [|p ps IH]; intros best bestScore; [done|].
  rewrite !scan_cons, H. by destruct (_ <? _)%nat.
Qed.

Lemma bestLibraryMatch_unfold (need : jsstring) (st : state) :
  bestLibraryMatch toLowerCase (VString need) st =
  if negb (nonEmpty (normalized toLowerCase need)) then (Ok None, st)
  else if (List.length (PROMPTS st) =? 0)%nat then (Ok None, st)
  else match scan toLowerCase (tokensOf toLowerCase need) (PROMPTS st)
                  None 0%nat st with
       | (Ok r, st') => (Ok (if (0 <? snd r)%nat then fst r else None), st')
       | (Throw e, st') => (Throw e, st')
       end.
Proof.
  unfold bestLibraryMatch, bind at 1. rewrite normalize_string.
  unfold tokensOf. destruct (negb _); [done|].
  unfold bind at 1, readPROMPTS. by destruct (_ =? _)%nat.
Qed.

(** X3.  The order of the words of the need does not matter: two needs
    with the same tokens, in whatever order, get the same answer from
    [bestLibraryMatch]. *)
Theorem bestLibraryMatch_token_order (need1 need2 : jsstring) (st : state) :
  tokensOf toLowerCase need1 ≡ₚ tokensOf toLowerCase need2 ->
  bestLibraryMatch toLowerCase (VString need1) st =
  bestLibraryMatch toLowerCase (VString need2) st.
Proof.
  intros Hperm.
  assert (Hnil : normalized toLowerCase need1 = [] <->
                 normalized toLowerCase need2 = []).
  { rewrite <- !tokensOf_nil_iff. split; intros H; rewrite H in Hperm.
    - by apply Permutation_nil in Hperm.
    - symmetry in Hperm. by apply Permutation_nil in Hperm. }
  rewrite !bestLibraryMatch_unfold.
  destruct (normalized toLowerCase need1) as [|c1 q1] eqn:H1;
    destruct (normalized toLowerCase need2) as [|c2 q2] eqn:H2;
    try done; try (by destruct Hnil as [Ha Hb]; first [discriminate Ha | discriminate Hb]).
  cbn [nonEmpty negb].
  destruct (List.length (PROMPTS st) =? 0)%nat; [done|].
  rewrite (scan_same_scores _ (tokensOf toLowerCase need2)); [done|].
  intros hay. rewrite !scoreTokens_count. by apply matchingTokens_perm.
Qed.

Lemma scan_filter (tokens : list jsstring) (ps : list PromptRecord)
  (best : option PromptRecord) (bestScore : nat) (st : state) :
  scan toLowerCase tokens
    (List.filter (fun p => (0 <? matchingTokens (haystack toLowerCase p) tokens)%nat) ps)
    best bestScore st =
  scan toLowerCase tokens ps best bestScore st.
Proof.
  revert best bestScore. induction ps as [|p ps IH]; intros best bestScore.
  - done.
  - cbn [List.filter]. rewrite (scan_cons _ p ps), scoreTokens_count.
    destruct (0 <? matchingTokens (haystack toLowerCase p) tokens)%nat eqn:Hp.
    + rewrite scan_cons, scoreTokens_count. by rewrite !IH.
    + apply Nat.ltb_ge in Hp.
      assert (matchingTokens (haystack toLowerCase p) tokens = 0)%nat as -> by lia.
      by destruct (bestScore <? 0)%nat eqn:E; [apply Nat.ltb_lt in E; lia|].
Qed.

Lemma scan_state (tokens : list jsstring) (ps : list PromptRecord)
  (best : option PromptRecord) (bestScore : nat) (st st' : state) :
  exists r, scan toLowerCase tokens ps best bestScore st = (Ok r, st) /\
            scan toLowerCase tokens ps best bestScore st' = (Ok r, st').
Proof.
  revert best bestScore. induction ps as [|p ps IH]; intros best bestScore.
  - by eexists.
  - rewrite !scan_cons. by destruct (_ <? _)%nat.
Qed.

(** X4.  Records that contain none of the tokens play no part: removing
    them from the library does not change what [bestLibraryMatch]
    returns. *)
Theorem bestLibraryMatch_ignores_unmatched (need : jsstring)
  (ps : list PromptRecord) :
  let hit := fun p =>
    (0 <? matchingTokens (haystack toLowerCase p)
                         (tokensOf toLowerCase need))%nat in
  fst (bestLibraryMatch toLowerCase (VString need) (library (List.filter hit ps))) =
  fst (bestLibraryMatch toLowerCase (VString need) (library ps)).
Proof.
  intros hit. rewrite !bestLibraryMatch_unfold. cbn [library PROMPTS].
  destruct (negb _); [done|].
  rewrite <- (scan_filter _ ps). fold hit.
  destruct (scan_state (tokensOf toLowerCase need) (List.filter hit ps) None 0
              (library (List.filter hit ps)) (library ps)) as (r & H1 & H2).
  rewrite H1, H2.
  destruct ps as [|p ps]; [done|].
  destruct (List.filter hit (p :: ps)) as [|p' ps'] eqn:Hf.
  - simpl in H2. injection H2 as <-. done.
  - done.
Qed.

End Matcher.

(** ** Tokens and white space in a haystack *)

Lemma occursIn_app_l (w t r : jsstring) : occursIn w t -> occursIn w (t ++ r).
Proof.
  intros (pre & post & ->). exists pre, (post ++ r). by rewrite <- !app_assoc.
Qed.

Lemma prefix_before_whitespace (tok post a b : jsstring) (c : N) :
  wsFree tok = true -> isWhiteSpace c = true ->
  tok ++ post = a ++ c :: b -> exists k, a = tok ++ k.
Proof.
  intros Htok Hc. revert a. induction tok as [|t tok IH]; intros a Heq.
  - by exists a.
  - simpl in Htok. apply andb_true_iff in Htok as [Ht Htok].
    destruct a as [|a0 a]; simpl in Heq; injection Heq as -> Heq.
    + rewrite Hc in Ht. discriminate.
    + destruct (IH Htok a Heq) as [k ->]. by exists k.
Qed.

(** A token without white space does not straddle a white-space code
    unit. *)
Lemma occursIn_ws_split (tok a b : jsstring) (c : N) :
  wsFree tok = true -> isWhiteSpace c = true ->
  occursIn tok (a ++ c :: b) -> occursIn tok a \/ occursIn tok b.
Proof.
  intros Htok Hc (pre & post & Heq). revert pre Heq.
  induction a as [|a0 a IH]; intros pre Heq.
  - destruct pre as [|p0 pre]; simpl in Heq.
    + symmetry in Heq.
      destruct (prefix_before_whitespace tok post [] b c Htok Hc Heq) as [k Hk].
      left. exists [], k. done.
    + injection Heq as _ ->. right. by exists pre, post.
  - destruct pre as [|p0 pre]; simpl in Heq.
    + symmetry in Heq.
      destruct (prefix_before_whitespace tok post (a0 :: a) b c Htok Hc Heq)
        as [k Hk].
      left. exists [], k. done.
    + injection Heq as _ Heq. destruct (IH pre Heq) as [H|H]; [|by right].
      left. by apply (occursIn_skip tok [a0] a).
Qed.

Lemma occursIn_blank (tok r : jsstring) :
  wsFree tok = true -> tok <> [] -> forallb isWhiteSpace r = true ->
  ~ occursIn tok r.
Proof.
  intros Htok Hne Hr (pre & post & ->).
  rewrite !forallb_app in Hr.
  apply andb_true_iff in Hr as [_ Hr]. apply andb_true_iff in Hr as [Hr _].
  destruct tok as [|t tok]; [done|]. simpl in *.
  apply andb_true_iff in Htok as [Ht _]. apply andb_true_iff in Hr as [Hr _].
  rewrite Hr in Ht. discriminate.
Qed.

Lemma occursIn_drop_prefix (tok l t : jsstring) :
  wsFree tok = true -> tok <> [] -> forallb isWhiteSpace l = true ->
  occursIn tok (l ++ t) -> occursIn tok t.
Proof.
  intros Htok Hne. induction l as [|c l IH]; simpl; [done|].
  intros [Hc Hl]%andb_true_iff H.
  apply (occursIn_ws_split tok [] (l ++ t) c Htok Hc) in H as [H|H].
  - by destruct (occursIn_blank tok [] Htok Hne eq_refl).
  - by apply IH.
Qed.

Lemma occursIn_drop_suffix (tok t r : jsstring) :
  wsFree tok = true -> tok <> [] -> forallb isWhiteSpace r = true ->
  occursIn tok (t ++ r) -> occursIn tok t.
Proof.
  intros Htok Hne Hr H. destruct r as [|c r]; [by rewrite app_nil_r in H|].
  simpl in Hr. apply andb_true_iff in Hr as [Hc Hr].
  apply (occursIn_ws_split tok t r c Htok Hc) in H as [H|H]; [done|].
  by destruct (occursIn_blank tok r Htok Hne Hr).
Qed.

(** Trimming a haystack does not change which tokens occur in it. *)
Lemma occursIn_trim (tok s : jsstring) :
  wsFree tok = true -> tok <> [] ->
  occursIn tok (trim s) <-> occursIn tok s.
Proof.
  intros Htok Hne. unfold trim.
  destruct (trimStart_decomp s) as (l & Hl & Hlws).
  destruct (trimEnd_decomp (trimStart s)) as (r & Hr & Hrws).
  split.
  - intros H. rewrite Hl, Hr. by apply occursIn_skip, occursIn_app_l.
  - intros H. rewrite Hl in H.
    apply (occursIn_drop_prefix tok l _ Htok Hne Hlws) in H.
    rewrite Hr in H. by apply (occursIn_drop_suffix tok _ r Htok Hne Hrws) in H.
Qed.

Lemma trimStart_pad (l s : jsstring) :
  forallb isWhiteSpace l = true -> trimStart (l ++ s) = trimStart s.
Proof.
  induction l as [|c l IH]; simpl; [done|].
  intros [-> Hl]%andb_true_iff. by apply IH.
Qed.

Lemma trimStart_app (s r : jsstring) :
  forallb isWhiteSpace s = false -> trimStart (s ++ r) = trimStart s ++ r.
Proof.
  induction s as [|c s IH]; simpl; [done|].
  destruct (isWhiteSpace c); simpl; [apply IH | done].
Qed.

Lemma trimEnd_pad (s r : jsstring) :
  forallb isWhiteSpace r = true -> trimEnd (s ++ r) = trimEnd s.
Proof.
  intros Hr. unfold trimEnd. rewrite rev_app_distr, trimStart_pad; [done|].
  by rewrite forallb_rev.
Qed.

(** White space around a string is trimmed away. *)
Lemma trim_pad (l s r : jsstring) :
  forallb isWhiteSpace l = true -> forallb isWhiteSpace r = true ->
  trim (l ++ s ++ r) = trim s.
Proof.
  intros Hl Hr. unfold trim. rewrite trimStart_pad by done.
  destruct (forallb isWhiteSpace s) eqn:Hs.
  - assert (forallb isWhiteSpace (s ++ r) = true) as Hsr
      by (by rewrite forallb_app, Hs, Hr).
    apply trimStart_nil_iff in Hs, Hsr. by rewrite Hs, Hsr.
  - by rewrite trimStart_app, trimEnd_pad.
Qed.

Section AsciiHost.

Variable toLowerCase : jsstring -> jsstring.
Hypothesis toLowerCase_ascii : lowersAscii toLowerCase.

Lemma normalized_ascii (s : jsstring) :
  asciiText s = true -> normalized toLowerCase s = map asciiLower (trim s).
Proof.
  intros H. unfold normalized. rewrite toLowerCase_ascii by done.
  apply trim_lower.
Qed.

Lemma map_asciiLower_idem (s : jsstring) :
  map asciiLower (map asciiLower s) = map asciiLower s.
Proof.
  rewrite map_map. apply map_ext. intros c. apply asciiLower_idem.
Qed.

Lemma map_asciiLower_blank (l : jsstring) :
  forallb isWhiteSpace l = true -> map asciiLower l = l.
Proof.
  induction l as [|c l IH]; simpl; [done|].
  intros [Hc Hl]%andb_true_iff. by rewrite asciiLower_whitespace, IH.
Qed.

Lemma asciiText_blank (l : jsstring) :
  forallb isWhiteSpace l = true -> asciiText l = true.
Proof.
  unfold asciiText. induction l as [|c l IH]; simpl; [done|].
  intros [-> Hl]%andb_true_iff. rewrite orb_true_r. by apply IH.
Qed.

(** X5.  On a need of ASCII text, normalizing twice is normalizing once:
    [normalize] returns a string that it leaves unchanged. *)
Theorem normalize_idempotent (s : jsstring) (st : state) :
  asciiText s = true ->
  exists n,
    normalize toLowerCase (VString s) st = (Ok n, st) /\
    normalize toLowerCase (VString n) st = (Ok n, st).
Proof.
  intros Hs. exists (normalized toLowerCase s).
  rewrite !normalize_string. split; [done|]. f_equal. f_equal.
  rewrite (normalized_ascii s Hs).
  rewrite normalized_ascii.
  - by rewrite <- trim_lower, map_asciiLower_idem, trim_lower, trim_idem.
  - rewrite asciiText_lower. by apply asciiText_trim.
Qed.

(** X6.  The case of the ASCII letters of a need and the white space
    around it do not matter: two needs of ASCII text that are equal once
    their letters are lowered, one of them padded with white space, get the
    same answer from [detectIntent] and from [bestLibraryMatch]. *)
Theorem need_case_and_padding (s1 s2 l r : jsstring) (st : state) :
  asciiText s1 = true -> asciiText s2 = true ->
  map asciiLower s1 = map asciiLower s2 ->
  forallb isWhiteSpace l = true -> forallb isWhiteSpace r = true ->
  detectIntent toLowerCase (VString (l ++ s1 ++ r)) st =
    detectIntent toLowerCase (VString s2) st /\
  bestLibraryMatch toLowerCase (VString (l ++ s1 ++ r)) st =
    bestLibraryMatch toLowerCase (VString s2) st.
Proof.
  intros H1 H2 Hlow Hl Hr.
  assert (Hn : normalized toLowerCase (l ++ s1 ++ r) =
               normalized toLowerCase s2).
  { rewrite !normalized_ascii; [|done|].
    - by rewrite trim_pad, <- !trim_lower, Hlow.
    - rewrite !asciiText_app, H1. by rewrite !asciiText_blank. }
  rewrite !detectIntent_string, !bestLibraryMatch_unfold.
  unfold tokensOf. by rewrite Hn.
Qed.

(** X7.  Matching is field by field: for records of ASCII text, a token
    (non-empty, without white space) is counted for a record exactly when
    it occurs in the lowercase form of the title, of the instruction or of
    the output.  The spaces that join the fields keep a token from matching
    across two of them. *)
Theorem token_matches_a_field (p : PromptRecord) (tok : jsstring) :
  asciiText (orEmpty (title p)) = true ->
  asciiText (orEmpty (instruction p)) = true ->
  asciiText (orEmpty (output p)) = true ->
  wsFree tok = true -> tok <> [] ->
  includes (haystack toLowerCase p) tok = true <->
  occursIn tok (map asciiLower (orEmpty (title p))) \/
  occursIn tok (map asciiLower (orEmpty (instruction p))) \/
  occursIn tok (map asciiLower (orEmpty (output p))).
Proof.
  intros HT HI HO Htok Hne. unfold haystack.
  set (T := orEmpty (title p)) in *. set (I := orEmpty (instruction p)) in *.
  set (O := orEmpty (output p)) in *.
  rewrite normalized_ascii
    by (rewrite !asciiText_app, HT, HI, HO; reflexivity).
  rewrite <- trim_lower, !map_app. change (map asciiLower sp) with [32%N].
  rewrite includes_spec, occursIn_trim by done. simpl.
  split.
  - intros H.
    apply (occursIn_ws_split tok _ _ 32%N Htok eq_refl) in H as [H|H];
      [by left|].
    apply (occursIn_ws_split tok _ _ 32%N Htok eq_refl) in H as [H|H];
      [by right; left | by right; right].
  - intros [H|[H|H]].
    + by apply occursIn_app_l.
    + apply occursIn_skip. by apply (occursIn_skip tok [32%N]), occursIn_app_l.
    + apply occursIn_skip. apply (occursIn_skip tok [32%N]).
      apply occursIn_skip. by apply (occursIn_skip tok [32%N]).
Qed.

End AsciiHost.

(** ** More on the templates and the click handlers *)

Lemma occursIn_quoted (need post : jsstring) :
  occursIn (dq ++ need ++ dq) (dq ++ need ++ dq ++ post).
Proof. exists [], post. by rewrite <- !app_assoc. Qed.

Ltac find_echo :=
  repeat first [ apply occursIn_quoted | apply occursIn_here
               | apply occursIn_end | apply occursIn_skip ].

Ltac echo_builder :=
  eexists; split; [reflexivity|]; split; [reflexivity|];
  unfold echoes; cbn [Gen.text]; split_and!; find_echo.

Lemma buildOOOPrompt_echoes (need tone length format : jsstring) (st : state) :
  exists g, buildOOOPrompt need tone length format st = (Ok g, st) /\
            Gen.title g = lit "Generated: Out-of-office message" /\
            echoes need tone length format g.
Proof. echo_builder. Qed.

Lemma buildStatusUpdatePrompt_echoes (need tone length format : jsstring)
  (st : state) :
  exists g, buildStatusUpdatePrompt need tone length format st = (Ok g, st) /\
            Gen.title g = lit "Generated: Stakeholder status update" /\
            echoes need tone length format g.
Proof. echo_builder. Qed.

Lemma buildProductReqPrompt_echoes (need tone length format : jsstring)
  (st : state) :
  exists g, buildProductReqPrompt need tone length format st = (Ok g, st) /\
            Gen.title g = lit "Generated: User story / requirement" /\
            echoes need tone length format g.
Proof. echo_builder. Qed.

Lemma buildPrdPrompt_echoes (need tone length format : jsstring) (st : state) :
  exists g, buildPrdPrompt need tone length format st = (Ok g, st) /\
            Gen.title g = lit "Generated: Product Requirements Document (PRD)" /\
            echoes need tone length format g.
Proof. echo_builder. Qed.

Lemma buildGenericPrompt_echoes (need tone length format : jsstring)
  (st : state) :
  exists g, buildGenericPrompt need tone length format st = (Ok g, st) /\
            Gen.title g = lit "Generated: Structured prompt from your need" /\
            echoes need tone length format g.
Proof. echo_builder. Qed.

(** X8.  Every builder, not only the out-of-office one, puts the need
    between double quotes into its text and echoes the tone, the length and
    the format unchanged; each has its own fixed title. *)
Theorem builders_echo_inputs (need tone length format : jsstring)
  (st : state) :
  (exists g, buildOOOPrompt need tone length format st = (Ok g, st) /\
             Gen.title g = lit "Generated: Out-of-office message" /\
             echoes need tone length format g) /\
  (exists g, buildStatusUpdatePrompt need tone length format st = (Ok g, st) /\
             Gen.title g = lit "Generated: Stakeholder status update" /\
             echoes need tone length format g) /\
  (exists g, buildProductReqPrompt need tone length format st = (Ok g, st) /\
             Gen.title g = lit "Generated: User story / requirement" /\
             echoes need tone length format g) /\
  (exists g, buildPrdPrompt need tone length format st = (Ok g, st) /\
             Gen.title g = lit "Generated: Product Requirements Document (PRD)" /\
             echoes need tone length format g) /\
  (exists g, buildGenericPrompt need tone length format st = (Ok g, st) /\
             Gen.title g = lit "Generated: Structured prompt from your need" /\
             echoes need tone length format g).
Proof.
  split_and!.
  - apply buildOOOPrompt_echoes.
  - apply buildStatusUpdatePrompt_echoes.
  - apply buildProductReqPrompt_echoes.
  - apply buildPrdPrompt_echoes.
  - apply buildGenericPrompt_echoes.
Qed.

Ltac in_table :=
  repeat first [apply list_elem_of_here | apply list_elem_of_further].

Lemma intentSwitch_registered (need tone length format : jsstring) :
  intentSwitch (lit "ooo") need tone length format =
    buildOOOPrompt need tone length format /\
  intentSwitch (lit "status_update") need tone length format =
    buildStatusUpdatePrompt need tone length format /\
  intentSwitch (lit "product_req") need tone length format =
    buildProductReqPrompt need tone length format /\
  intentSwitch (lit "prd") need tone length format =
    buildPrdPrompt need tone length format /\
  intentSwitch (lit "generic") need tone length format =
    buildGenericPrompt need tone length format.
Proof. by split_and!. Qed.

Lemma words_whole (w : jsstring) :
  w ∈ allWords -> w <> [] /\ headIsWord w = true /\ lastIsWord w = true.
Proof.
  intros Hw.
  assert (H : forallb (fun w => nonEmpty w && headIsWord w && lastIsWord w)
                      allWords = true) by (vm_compute; reflexivity).
  rewrite forallb_forall in H. apply list_elem_of_In, H in Hw.
  apply andb_true_iff in Hw as [Hw Hl]. apply andb_true_iff in Hw as [Hn Hh].
  by destruct w.
Qed.

(** A phrase that stands as a whole word is a match of its pattern. *)
Lemma wordMatch_whole (ws : list jsstring) (w pre post : jsstring) :
  w ∈ ws -> w ∈ allWords ->
  lastIsWord pre = false -> headIsWord post = false ->
  wordMatch ws (pre ++ w ++ post).
Proof.
  intros Hw Hall Hpre Hpost. destruct (words_whole w Hall) as (Hne & Hh & Hl).
  exists w, pre, post. split_and!; [done | done | |].
  - unfold boundaryBetween. rewrite Hpre.
    destruct w as [|c w]; [done|]. simpl in *. by rewrite Hh.
  - unfold boundaryBetween. rewrite Hpost.
    unfold lastIsWord in *. rewrite last_app.
    destruct (last w) eqn:Hlast; [by rewrite Hl|].
    apply last_None in Hlast. done.
Qed.

(** No two tags share a title. *)
Lemma intentTitles_injective (a b : jsstring * jsstring) :
  a ∈ intentTitles -> b ∈ intentTitles -> a.2 = b.2 -> a.1 = b.1.
Proof.
  assert (H : Forall (fun a => Forall (fun b => a.2 = b.2 -> a.1 = b.1)
                                      intentTitles) intentTitles).
  { repeat constructor; intros E;
      solve [reflexivity | vm_compute in E; discriminate E]. }
  intros Ha Hb. rewrite Forall_forall in H. specialize (H a Ha).
  rewrite Forall_forall in H. by apply H.
Qed.

Section Handlers.

Variable toLowerCase : jsstring -> jsstring.

(** X9.  What [detectIntent] and [bestLibraryMatch] do with a need of any
    primitive type: for a string or a falsy value both return, the first
    one of the five tags, and leave the state alone; for a truthy value
    that is not a string both throw a TypeError. *)
Theorem need_value_outcome (v : value) (st : state) :
  ((ToBoolean v = false \/ exists s, v = VString s) /\
   (exists tag, tag ∈ intentTags /\
                detectIntent toLowerCase v st = (Ok tag, st)) /\
   (exists r, bestLibraryMatch toLowerCase v st = (Ok r, st))) \/
  (ToBoolean v = true /\ (forall s, v <> VString s) /\
   detectIntent toLowerCase v st = (Throw TypeError, st) /\
   bestLibraryMatch toLowerCase v st = (Throw TypeError, st)).
Proof.
  assert (Hstr : forall s,
    (exists tag, tag ∈ intentTags /\
                 detectIntent toLowerCase (VString s) st = (Ok tag, st)) /\
    (exists r, bestLibraryMatch toLowerCase (VString s) st = (Ok r, st))).
  { intros s. split.
    - eexists. split; [|apply detectIntent_string]. cbv zeta.
      repeat (destruct (test _ _); [in_table|]). in_table.
    - destruct (bestLibraryMatch_string toLowerCase s st) as (r & Hr & _).
      by exists r. }
  destruct (ToBoolean v) eqn:Hv.
  - destruct v as [| |b|n|z|d|s];
      try (right; split_and!;
           [done | done | apply truthy_non_string_throws; done
                        | apply truthy_non_string_throws; done]).
    left. split; [right; by exists s | apply Hstr].
  - left. split; [by left|].
    pose proof (normalize_falsy toLowerCase v Hv) as Hn.
    assert (detectIntent toLowerCase v = detectIntent toLowerCase (VString []))
      as -> by (unfold detectIntent; by rewrite Hn).
    assert (bestLibraryMatch toLowerCase v =
            bestLibraryMatch toLowerCase (VString [])) as ->
      by (unfold bestLibraryMatch; by rewrite Hn).
    apply Hstr.
Qed.

(** X10.  A keyword that stands as a whole word is detected: if the
    normalized need contains one of the phrases with no word character
    right before it and none right after it, the intent is not "generic",
    and it is "ooo" when the phrase is an out-of-office one. *)
Theorem detectIntent_whole_word (need w pre post : jsstring) (st : state) :
  normalized toLowerCase need = pre ++ w ++ post ->
  w ∈ allWords ->
  lastIsWord pre = false -> headIsWord post = false ->
  exists tag,
    detectIntent toLowerCase (VString need) st = (Ok tag, st) /\
    tag <> lit "generic" /\
    (w ∈ ooo_words -> tag = lit "ooo").
Proof.
  intros Hn Hall Hpre Hpost. eexists. split; [apply detectIntent_string|].
  cbv zeta. rewrite Hn.
  assert (Hm : forall ws, ws <> [] -> w ∈ ws ->
                 test (wordsOf ws) (pre ++ w ++ post) = true).
  { intros ws Hne Hw. apply test_wordsOf; [done|]. by apply wordMatch_whole. }
  unfold re_ooo, re_status_update, re_product_req, re_prd.
  destruct (test (wordsOf ooo_words) _) eqn:H1; [done|].
  split.
  - unfold allWords in Hall. rewrite !elem_of_app in Hall.
    destruct Hall as [H|[H|[H|H]]].
    + rewrite Hm in H1; done.
    + rewrite (Hm status_update_words); done.
    + destruct (test (wordsOf status_update_words) _); [done|].
      rewrite (Hm product_req_words); done.
    + destruct (test (wordsOf status_update_words) _); [done|].
      destruct (test (wordsOf product_req_words) _); [done|].
      rewrite (Hm prd_words); done.
  - intros H. rewrite Hm in H1; done.
Qed.

(** X11.  The "generate from need" handler never throws and never shows an
    empty title.  For a need that is blank it asks for one.  Otherwise the
    title is the title of the detected intent, and tells that intent apart
    from the other four, and the text echoes the trimmed need, between
    double quotes, and the three settings, whichever template was used. *)
Theorem onGenerateFromNeed_outcome (needInput tone length format : jsstring)
  (st : state) :
  exists g,
    onGenerateFromNeed toLowerCase needInput tone length format st =
      (Ok g, st) /\
    Gen.title g <> [] /\
    (trim needInput = [] -> Gen.title g = lit "Tell me what you need") /\
    (trim needInput <> [] ->
     exists tag,
       detectIntent toLowerCase (VString (trim needInput)) st = (Ok tag, st) /\
       (tag, Gen.title g) ∈ intentTitles /\
       (forall tag', (tag', Gen.title g) ∈ intentTitles -> tag' = tag) /\
       echoes (trim needInput) tone length format g).
Proof.
  unfold onGenerateFromNeed.
  destruct (trim needInput) as [|c n] eqn:Hneed.
  { eexists. split; [reflexivity|]. by split_and!. }
  cbn [nonEmpty negb]. unfold bind. rewrite detectIntent_string. cbv zeta.
  set (need := c :: n). set (q := normalized toLowerCase need).
  destruct (intentSwitch_registered need tone length format)
    as (S1 & S2 & S3 & S4 & S5).
  assert (Hdone : forall tag build title,
    intentSwitch tag need tone length format = build ->
    (exists g, build st = (Ok g, st) /\ Gen.title g = title /\
               echoes need tone length format g) ->
    title <> [] -> (tag, title) ∈ intentTitles ->
    (forall tag', (tag', title) ∈ intentTitles -> tag' = tag) ->
    exists g,
      match intentSwitch tag need tone length format st with
      | (Ok a, st') => ret a st'
      | (Throw e, st') => (Throw e, st')
      end = (Ok g, st) /\
      Gen.title g <> [] /\
      (need = [] -> Gen.title g = lit "Tell me what you need") /\
      (need <> [] ->
       exists tag0, (Ok tag, st) = (Ok tag0, st) /\
         (tag0, Gen.title g) ∈ intentTitles /\
         (forall tag', (tag', Gen.title g) ∈ intentTitles -> tag' = tag0) /\
         echoes need tone length format g)).
  { intros tag build title -> (g & Hg & <- & He) Hne Hin Huniq.
    exists g. rewrite Hg. split_and!; [done | done | done |].
    intros _. by exists tag. }
  assert (Huniq : forall tag title, (tag, title) ∈ intentTitles ->
            forall tag', (tag', title) ∈ intentTitles -> tag' = tag).
  { intros tag title Hin tag' Hin'.
    by apply (intentTitles_injective (tag', title) (tag, title)). }
  destruct (test re_ooo q).
  { eapply Hdone; [exact S1 | apply buildOOOPrompt_echoes | done | |];
      [in_table | apply Huniq; in_table]. }
  destruct (test re_status_update q).
  { eapply Hdone; [exact S2 | apply buildStatusUpdatePrompt_echoes | done | |];
      [in_table | apply Huniq; in_table]. }
  destruct (test re_product_req q).
  { eapply Hdone; [exact S3 | apply buildProductReqPrompt_echoes | done | |];
      [in_table | apply Huniq; in_table]. }
  destruct (test re_prd q).
  { eapply Hdone; [exact S4 | apply buildPrdPrompt_echoes | done | |];
      [in_table | apply Huniq; in_table]. }
  eapply Hdone; [exact S5 | apply buildGenericPrompt_echoes | done | |];
    [in_table | apply Huniq; in_table].
Qed.


(** The library handler, case by case. *)
Lemma onGenerateFromLibrary_cases (needInput : jsstring) (st : state) :
  (bestLibraryMatch toLowerCase (VString (trim needInput)) st = (Ok None, st) /\
   onGenerateFromLibrary toLowerCase needInput st = (Ok noMatchMessage, st)) \/
  (exists p text,
     bestLibraryMatch toLowerCase (VString (trim needInput)) st =
       (Ok (Some p), st) /\
     formatLibraryPrompt p st = (Ok text, st) /\
     onGenerateFromLibrary toLowerCase needInput st =
       (Ok (Gen.mk (titleOrDefault p) text), st)).
Proof.
  destruct (bestLibraryMatch_string toLowerCase (trim needInput) st)
    as ([p|] & Hr & _).
  - right. exists p. eexists. split_and!; [done | reflexivity |].
    unfold onGenerateFromLibrary, bind. by rewrite Hr.
  - left. split; [done|]. unfold onGenerateFromLibrary, bind. by rewrite Hr.
Qed.

(** X12.  White space around the need typed in the form changes nothing:
    both click handlers give the same result for a need and for the same
    need with white space before and after it. *)
Theorem handlers_ignore_padding (l needInput r tone length format : jsstring)
  (st : state) :
  forallb isWhiteSpace l = true -> forallb isWhiteSpace r = true ->
  onGenerateFromNeed toLowerCase (l ++ needInput ++ r) tone length format st =
    onGenerateFromNeed toLowerCase needInput tone length format st /\
  onGenerateFromLibrary toLowerCase (l ++ needInput ++ r) st =
    onGenerateFromLibrary toLowerCase needInput st.
Proof.
  intros Hl Hr. unfold onGenerateFromNeed, onGenerateFromLibrary.
  by rewrite trim_pad.
Qed.


(** X14.  [loadPrompts] never throws.  It replaces the library by the
    array that was fetched, and by the empty library when the fetch fails,
    when the body is not JSON or when the JSON is not an array; after such
    a load the library handler answers every need with the no-match
    message. *)
Theorem loadPrompts_outcome (r : response) (st : state) :
  exists st',
    loadPrompts r st = (Ok tt, st') /\
    PROMPTS st' = match r with
                  | Parsed (JArray items) => items
                  | _ => []
                  end /\
    ((forall items, r <> Parsed (JArray items)) ->
     forall needInput,
       (let! _ := loadPrompts r in
        onGenerateFromLibrary toLowerCase needInput) st =
       (Ok noMatchMessage, library [])).
Proof.
  assert (Hempty : forall needInput,
    onGenerateFromLibrary toLowerCase needInput (library []) =
    (Ok noMatchMessage, library [])).
  { intros needInput.
    destruct (onGenerateFromLibrary_cases needInput (library []))
      as [[_ Hg]|(p & text & Hb & _)]; [done|].
    destruct (bestLibraryMatch_string toLowerCase (trim needInput) (library []))
      as (r0 & Hr & Hnone & _).
    rewrite Hb in Hr. injection Hr as <-.
    assert (Some p = None) by (apply Hnone; by right; left). discriminate. }
  destruct r as [| |[items|]]; eexists;
    (split; [reflexivity|]); (split; [reflexivity|]); intros Hnot needInput;
    try (unfold bind; cbn [loadPrompts writePROMPTS]; apply Hempty).
  by destruct (Hnot items).
Qed.

End Handlers.

(** ** Instances of the further properties *)


Lemma bestLibraryMatch_null_iff_witness :
  bestLibraryMatch asciiToLowerCase (VString (lit "planning"))
    (library [recordA; recordB]) = (Ok (Some recordB), library [recordA; recordB]) /\
  exists tok, tok ∈ tokensOf asciiToLowerCase (lit "planning") /\
              occursIn tok (haystack asciiToLowerCase recordB).
Proof.
  assert (H : bestLibraryMatch asciiToLowerCase (VString (lit "planning"))
                (library [recordA; recordB]) =
              (Ok (Some recordB), library [recordA; recordB]))
    by (vm_compute; reflexivity).
  split; [exact H|].
  destruct (bestLibraryMatch_null_iff asciiToLowerCase (lit "planning")
              (library [recordA; recordB])) as [_ Hsome].
  exact (proj1 (Hsome recordB H)).
Defined.

Lemma bestLibraryMatch_token_order_witness :
  tokensOf asciiToLowerCase (lit "sprint plan") ≡ₚ
    tokensOf asciiToLowerCase (lit "plan sprint") /\
  bestLibraryMatch asciiToLowerCase (VString (lit "sprint plan"))
    (library [recordB; sprintRecord]) =
  bestLibraryMatch asciiToLowerCase (VString (lit "plan sprint"))
    (library [recordB; sprintRecord]).
Proof.
  assert (H : tokensOf asciiToLowerCase (lit "sprint plan") ≡ₚ
              tokensOf asciiToLowerCase (lit "plan sprint"))
    by (vm_compute; apply perm_swap).
  split; [exact H|].
  exact (bestLibraryMatch_token_order asciiToLowerCase _ _ _ H).
Defined.

Lemma normalize_idempotent_witness :
  asciiText (lit "  Hello World ") = true /\
  exists n,
    normalize asciiToLowerCase (VString (lit "  Hello World ")) (library []) =
      (Ok n, library []) /\
    normalize asciiToLowerCase (VString n) (library []) = (Ok n, library []).
Proof.
  split; [reflexivity|].
  exact (normalize_idempotent asciiToLowerCase asciiToLowerCase_lowersAscii
           (lit "  Hello World ") (library []) eq_refl).
Defined.

Lemma need_case_and_padding_witness :
  map asciiLower (lit "OOO Friday") = map asciiLower (lit "ooo friday") /\
  detectIntent asciiToLowerCase (VString (lit "  " ++ lit "OOO Friday" ++ lit " "))
    (library [sprintRecord]) =
  detectIntent asciiToLowerCase (VString (lit "ooo friday"))
    (library [sprintRecord]).
Proof.
  split; [reflexivity|].
  exact (proj1 (need_case_and_padding asciiToLowerCase
                  asciiToLowerCase_lowersAscii (lit "OOO Friday")
                  (lit "ooo friday") (lit "  ") (lit " ")
                  (library [sprintRecord])
                  eq_refl eq_refl eq_refl eq_refl eq_refl)).
Defined.

Lemma token_matches_a_field_witness :
  wsFree (lit "plan") = true /\
  (includes (haystack asciiToLowerCase sprintRecord) (lit "plan") = true <->
   occursIn (lit "plan") (map asciiLower (orEmpty (title sprintRecord))) \/
   occursIn (lit "plan") (map asciiLower (orEmpty (instruction sprintRecord))) \/
   occursIn (lit "plan") (map asciiLower (orEmpty (output sprintRecord)))).
Proof.
  split; [reflexivity|].
  apply (token_matches_a_field asciiToLowerCase asciiToLowerCase_lowersAscii
           sprintRecord (lit "plan")); [reflexivity.. | discriminate].
Defined.

Lemma detectIntent_whole_word_witness :
  normalized asciiToLowerCase (lit "Is it a Vacation?") =
    lit "is it a " ++ lit "vacation" ++ lit "?" /\
  exists tag,
    detectIntent asciiToLowerCase (VString (lit "Is it a Vacation?"))
      (library []) = (Ok tag, library []) /\
    tag <> lit "generic" /\
    (lit "vacation" ∈ ooo_words -> tag = lit "ooo").
Proof.
  assert (Hn : normalized asciiToLowerCase (lit "Is it a Vacation?") =
               lit "is it a " ++ lit "vacation" ++ lit "?")
    by (vm_compute; reflexivity).
  split; [exact Hn|].
  apply (detectIntent_whole_word asciiToLowerCase _ _ _ _ (library []) Hn);
    [unfold allWords, ooo_words; in_table | reflexivity | reflexivity].
Defined.

Lemma onGenerateFromNeed_outcome_witness :
  trim (lit " status please ") <> [] /\
  exists g,
    onGenerateFromNeed asciiToLowerCase (lit " status please ") (lit "direct")
      (lit "short") (lit "slack") (library []) = (Ok g, library []) /\
    echoes (lit "status please") (lit "direct") (lit "short") (lit "slack") g.
Proof.
  assert (Hne : trim (lit " status please ") <> [])
    by (vm_compute; discriminate).
  split; [exact Hne|].
  destruct (onGenerateFromNeed_outcome asciiToLowerCase (lit " status please ")
              (lit "direct") (lit "short") (lit "slack") (library []))
    as (g & Hg & _ & _ & Hnonblank).
  destruct (Hnonblank Hne) as (tag & _ & _ & _ & Hecho).
  exists g. split; [exact Hg | exact Hecho].
Defined.

Lemma handlers_ignore_padding_witness :
  forallb isWhiteSpace (lit "  ") = true /\
  onGenerateFromLibrary asciiToLowerCase (lit "  " ++ lit "planning" ++ lit " ")
    (library [recordA; recordB]) =
  onGenerateFromLibrary asciiToLowerCase (lit "planning")
    (library [recordA; recordB]).
Proof.
  split; [reflexivity|].
  exact (proj2 (handlers_ignore_padding asciiToLowerCase (lit "  ")
                  (lit "planning") (lit " ") [] [] []
                  (library [recordA; recordB]) eq_refl eq_refl)).
Defined.


Lemma loadPrompts_outcome_witness :
  (forall items, JsonRejected <> Parsed (JArray items)) /\
  (let! _ := loadPrompts JsonRejected in
   onGenerateFromLibrary asciiToLowerCase (lit "planning"))
    (library [recordA; recordB]) = (Ok noMatchMessage, library []).
Proof.
  assert (Hnot : forall items, JsonRejected <> Parsed (JArray items))
    by discriminate.
  split; [exact Hnot|].
  destruct (loadPrompts_outcome asciiToLowerCase JsonRejected
              (library [recordA; recordB])) as (st' & _ & _ & Hdegrade).
  exact (Hdegrade Hnot (lit "planning")).
Defined.
